(** * HydraFlow-X standalone dashboard: a shallow embedding

    This development embeds the class [HydraFlowDashboard] of
    [src/standalone_dashboard.py] (lines 17-108): its constructor, the
    connection handler [register_client], the update generator
    [generate_live_data] and the body of the loop of [broadcast_data].

    Conventions of the embedding.
    - Python [int] is [Z].
    - A Python [float] is the rational it denotes ([Q]).  The embedding
      of the class below computes with these rationals exactly; it is
      used for orders and ranges, which the rounding of binary64 results
      preserves.  [Module F64] embeds [generate_live_data] once more with
      every operation rounded to binary64, for what is said of the values
      that are stored.
    - Python [str] is [string]; a [list] is a [list]; the [set] of
      connected clients is a [gset] of opaque connection handles.
    - The metrics [dict] has a fixed set of keys that is never extended
      or shrunk: it is a record, and [metrics_dict] is its view as an
      ordered key/value dictionary, used where the code serialises it.
    - Every call into [random], [time] and [datetime] is an input of the
      function that makes it (a record of draws); the outcome of each
      [client.send] is given by the environment as well.
    - An exception is an explicit [Raise] result; a state that is mutated
      is passed and returned explicitly. *)

From Stdlib Require Import ZArith QArith Qround Qabs Qpower Lqa Lia.
From stdpp Require Import base gmap sets list strings pretty.

Local Open Scope Z_scope.
Local Set Warnings "-register-all,-clear-no-such-hyp".

(** ** Python primitives used by the program *)

Module Py.

(** Exceptions that the modelled code can meet. *)
Inductive exn : Type :=
| KeyError
| ConnectionClosed
| OtherError (msg : string).

(** The result of a call that may raise. *)
Inductive result (A : Type) : Type :=
| Ok (a : A)
| Raise (e : exn).
Arguments Ok {A} a.
Arguments Raise {A} e.

Definition is_ok {A} (r : result A) : bool :=
  match r with Ok _ => true | Raise _ => false end.

(** [l[-n:]]: the last [n] elements, the whole list when it is shorter.
    ([l[-0:]] is [l[0:]], the whole list.) *)
Definition slice_last {A} (n : nat) (l : list A) : list A :=
  match n with
  | O => l
  | _ => drop (length l - n)%nat l
  end.

(** [x > y] on floats. *)
Definition gt (x y : Q) : bool := negb (Qle_bool x y).

(** Round half to even of a rational to an integer. *)
Definition round_half_even (y : Q) : Z :=
  let f := Qfloor y in
  match (y - inject_Z f ?= 1 # 2)%Q with
  | Lt => f
  | Gt => f + 1
  | Eq => if Z.even f then f else f + 1
  end.

(** [round(x, ndigits)] on a float: the multiple of [10^-ndigits]
    nearest to the exact value of [x], ties to the even multiple. *)
Definition round (x : Q) (ndigits : nat) : Q :=
  let scale := inject_Z (10 ^ Z.of_nat ndigits) in
  (inject_Z (round_half_even (x * scale)) / scale)%Q.

(** [int(x)] on a float: truncation toward zero. *)
Definition int (x : Q) : Z := Z.quot (Qnum x) (Z.pos (Qden x)).

(** [random.choice(seq)] is [seq[k]] for the index [k] that the
    generator draws below [len(seq)]. *)
Definition choice (seq : list string) (k : nat) : string :=
  nth k seq EmptyString.

Definition first_exn {A} (rs : list (result A)) : option exn :=
  list_find (λ r, is_ok r = false) rs ≫= λ '(_, r),
    match r with Raise e => Some e | Ok _ => None end.

(** [await asyncio.gather(aws..., return_exceptions=flag)]: every
    awaitable is run; with the flag set, exceptions are returned in the
    result list like values, otherwise the first one is raised to the
    awaiter. *)
Definition gather {A} (return_exceptions : bool) (rs : list (result A))
  : result (list (result A)) :=
  if return_exceptions then Ok rs
  else match first_exn rs with
       | Some e => Raise e
       | None => Ok rs
       end.

End Py.

Import Py.

(** ** Data model *)

(** The dictionary [self.metrics] (lines 21-31). *)
Record Metrics : Type := {
  orders_executed : Z;
  total_volume : Q;
  avg_latency_us : Q;
  success_rate : Q;
  active_strategies : Z;
  ai_confidence : Q;
  risk_score : Q;
  memecoin_scanned : Z;
  profits_usd : Q
}.

(** One element of [self.live_trades] (lines 91-102). *)
Module Trade.
Record t : Type := {
  id : string;
  timestamp : string;
  token : string;
  side : string;
  amount_usd : Q;
  price : Q;
  latency_us : Q;
  status : string;
  source : string;
  exchange : string
}.
End Trade.

(** An opaque handle of one websocket connection. *)
Definition websocket : Type := nat.

(** The attributes of a [HydraFlowDashboard] instance (lines 19-33). *)
Record Dashboard : Type := {
  clients : gset nat;
  running : bool;
  metrics : Metrics;
  live_trades : list Trade.t;
  tokens : list string
}.

(** JSON-shaped values: what [json.dumps] is given. *)
Inductive json : Type :=
| JStr (s : string)
| JInt (z : Z)
| JFloat (q : Q)
| JArr (items : list json)
| JObj (fields : list (string * json)).

(** [d[k]] on a dictionary given by its items in insertion order. *)
Fixpoint assoc (k : string) (fields : list (string * json)) : option json :=
  match fields with
  | [] => None
  | (k', v) :: rest => if String.eqb k k' then Some v else assoc k rest
  end.

Definition get (k : string) (j : json) : option json :=
  match j with
  | JObj fields => assoc k fields
  | _ => None
  end.

Definition keys (j : json) : list string :=
  match j with
  | JObj fields => fields.*1
  | _ => []
  end.

Definition metrics_dict (m : Metrics) : json :=
  JObj [ ("orders_executed", JInt (orders_executed m));
         ("total_volume", JFloat (total_volume m));
         ("avg_latency_us", JFloat (avg_latency_us m));
         ("success_rate", JFloat (success_rate m));
         ("active_strategies", JInt (active_strategies m));
         ("ai_confidence", JFloat (ai_confidence m));
         ("risk_score", JFloat (risk_score m));
         ("memecoin_scanned", JInt (memecoin_scanned m));
         ("profits_usd", JFloat (profits_usd m)) ]%string.

Definition trade_dict (t : Trade.t) : json :=
  JObj [ ("id", JStr (Trade.id t));
         ("timestamp", JStr (Trade.timestamp t));
         ("token", JStr (Trade.token t));
         ("side", JStr (Trade.side t));
         ("amount_usd", JFloat (Trade.amount_usd t));
         ("price", JFloat (Trade.price t));
         ("latency_us", JFloat (Trade.latency_us t));
         ("status", JStr (Trade.status t));
         ("source", JStr (Trade.source t));
         ("exchange", JStr (Trade.exchange t)) ]%string.

(** ** [__init__] (lines 18-33) *)

Definition init_metrics : Metrics := {|
  orders_executed := 0;
  total_volume := 0.0;
  avg_latency_us := 0.0;
  success_rate := 99.8;
  active_strategies := 12;
  ai_confidence := 0.85;
  risk_score := 0.15;
  memecoin_scanned := 0;
  profits_usd := 0.0
|}.

Definition init : Dashboard := {|
  clients := ∅;
  running := true;
  metrics := init_metrics;
  live_trades := [];
  tokens := ["BTC"; "ETH"; "SOL"; "PEPE"; "SHIB"; "DOGE"; "BONK"; "WIF";
             "POPCAT"; "MOODENG"]%string
|}.

(** ** The random and clock inputs of [generate_live_data] *)

(** The draws of lines 85-101, made only when a trade is generated. *)
Record TradeDraws : Type := {
  r_token : nat;        (* index drawn by random.choice(self.tokens) *)
  r_side : nat;         (* index drawn by random.choice(['BUY', 'SELL']) *)
  r_amount : Q;         (* random.uniform(1000, 25000) *)
  r_price : Q;          (* random.uniform(0.001, 100000) *)
  r_latency : Q;        (* random.uniform(45, 200) *)
  r_time : Q;           (* time.time() *)
  r_now : string;       (* datetime.now().isoformat() *)
  r_source : nat;       (* index drawn by random.choice([...]) *)
  r_exchange : nat      (* index drawn by random.choice([...]) *)
}.

(** The draws of lines 75-84, made on every call. *)
Record Draws : Type := {
  r_orders : Z;         (* random.randint(1, 5) *)
  r_volume : Q;         (* random.uniform(1000, 50000) *)
  r_avg_latency : Q;    (* random.uniform(50, 150) *)
  r_confidence : Q;     (* random.uniform(0, 0.25) *)
  r_risk : Q;           (* random.uniform(0.05, 0.25) *)
  r_memecoin : Z;       (* random.randint(0, 3) *)
  r_profit : Q;         (* random.uniform(-100, 500) *)
  r_gate : Q;           (* random.random() *)
  r_trade : TradeDraws
}.

Definition sides : list string := ["BUY"; "SELL"]%string.
Definition sources : list string :=
  ["AI_SIGNAL"; "ARBITRAGE"; "MOMENTUM"; "SENTIMENT"]%string.
Definition exchanges : list string :=
  ["RAYDIUM"; "ORCA"; "JUPITER"; "UNISWAP"]%string.

(** The documented ranges of the library calls: [randint(a, b)] is in
    [a..b], [uniform(a, b)] in [[a, b]], [random()] in [[0, 1)], and
    [choice] draws an index below the length of its argument. *)
Definition between (lo x hi : Q) : Prop := (lo <= x)%Q ∧ (x <= hi)%Q.

Record trade_draws_ok (self : Dashboard) (t : TradeDraws) : Prop := {
  ok_token : (r_token t < length (tokens self))%nat;
  ok_side : (r_side t < length sides)%nat;
  ok_amount : between 1000 (r_amount t) 25000;
  ok_price : between 0.001 (r_price t) 100000;
  ok_latency : between 45 (r_latency t) 200;
  ok_source : (r_source t < length sources)%nat;
  ok_exchange : (r_exchange t < length exchanges)%nat
}.

Record draws_ok (self : Dashboard) (d : Draws) : Prop := {
  ok_orders : 1 ≤ r_orders d ≤ 5;
  ok_volume : between 1000 (r_volume d) 50000;
  ok_avg_latency : between 50 (r_avg_latency d) 150;
  ok_confidence : between 0 (r_confidence d) 0.25;
  ok_risk : between 0.05 (r_risk d) 0.25;
  ok_memecoin : 0 ≤ r_memecoin d ≤ 3;
  ok_profit : between (-100) (r_profit d) 500;
  ok_gate : (0 <= r_gate d)%Q ∧ (r_gate d < 1)%Q;
  ok_trade : trade_draws_ok self (r_trade d)
}.

(** ** [generate_live_data] (lines 73-108) *)

(** Lines 75-81. *)
Definition update_metrics (d : Draws) (m : Metrics) : Metrics := {|
  orders_executed := orders_executed m + r_orders d;
  total_volume := (total_volume m + r_volume d)%Q;
  avg_latency_us := r_avg_latency d;
  success_rate := success_rate m;
  active_strategies := active_strategies m;
  ai_confidence := (0.75 + r_confidence d)%Q;
  risk_score := r_risk d;
  memecoin_scanned := memecoin_scanned m + r_memecoin d;
  profits_usd := (profits_usd m + r_profit d)%Q
|}.

(** Lines 85-102. *)
Definition make_trade (self : Dashboard) (t : TradeDraws) : Trade.t := {|
  Trade.id := "T" +:+ pretty (Py.int (r_time t * 1000)%Q);
  Trade.timestamp := r_now t;
  Trade.token := choice (tokens self) (r_token t);
  Trade.side := choice sides (r_side t);
  Trade.amount_usd := Py.round (r_amount t) 2;
  Trade.price := Py.round (r_price t) 6;
  Trade.latency_us := Py.round (r_latency t) 1;
  Trade.status := "EXECUTED";
  Trade.source := choice sources (r_source t);
  Trade.exchange := choice exchanges (r_exchange t)
|}.

(** Lines 104-108: append, then keep only the last 100 trades. *)
Definition record_trade (trade : Trade.t) (history : list Trade.t)
  : list Trade.t :=
  let history := history ++ [trade] in
  if (100 <? length history)%nat then slice_last 100 history else history.

(** The history after the insertions [ts], oldest first. *)
Definition record_all (h : list Trade.t) (ts : list Trade.t) : list Trade.t :=
  foldl (λ acc t, record_trade t acc) h ts.

(** Line 84: [random.random() > 0.7]. *)
Definition gate_threshold : Q := 0.7.
Definition new_trade (d : Draws) : bool := Py.gt (r_gate d) gate_threshold.

Definition generate_live_data (d : Draws) (self : Dashboard) : Dashboard :=
  let metrics' := update_metrics d (metrics self) in
  let live_trades' :=
    if new_trade d
    then record_trade (make_trade self (r_trade d)) (live_trades self)
    else live_trades self in
  {| clients := clients self;
     running := running self;
     metrics := metrics';
     live_trades := live_trades';
     tokens := tokens self |}.

(** ** [register_client] (lines 35-42)

    The handler adds the connection, waits until it is closed, and
    removes it in its [finally] clause.  The two halves run at different
    times; the wait in between belongs to the environment. *)

Definition set_clients (cs : gset nat) (self : Dashboard) : Dashboard :=
  {| clients := cs;
     running := running self;
     metrics := metrics self;
     live_trades := live_trades self;
     tokens := tokens self |}.

(** Line 36: [self.clients.add(websocket)]. *)
Definition join (w : websocket) (self : Dashboard) : Dashboard :=
  set_clients ({[w]} ∪ clients self) self.

(** Line 41: [self.clients.remove(websocket)]; [set.remove] raises
    [KeyError] when the element is absent, and then changes nothing. *)
Definition leave (w : websocket) (self : Dashboard)
  : result unit * Dashboard :=
  if bool_decide (w ∈ clients self)
  then (Ok (), set_clients (clients self ∖ {[w]}) self)
  else (Raise KeyError, self).

(** ** One iteration of the loop of [broadcast_data] (lines 46-69) *)

(** What the environment supplies to one iteration.  A client is sent
    [json.dumps(data)]; the model keeps the value [data] itself as the
    payload and counts the calls of [json.dumps]. *)
Record Env : Type := {
  env_draws : Draws;                              (* the random module *)
  env_now : string;                               (* datetime.now().isoformat() *)
  env_send : websocket → json → result unit       (* client.send(...) *)
}.

(** What one iteration does to the outside. *)
Record Effects : Type := {
  dumps_calls : nat;                               (* calls of json.dumps *)
  sends : list (websocket * json * result unit);   (* client.send, with outcome *)
  escaped : option exn                             (* raised to the caller *)
}.

Definition no_effects : Effects :=
  {| dumps_calls := 0; sends := []; escaped := None |}.

Definition system_status : json :=
  JObj [ ("core_engine", JStr "ONLINE");
         ("ai_system", JStr "PROCESSING");
         ("execution_engine", JStr "ULTRA_FAST");
         ("risk_manager", JStr "PROTECTED");
         ("network", JStr "OPTIMAL") ]%string.

(** Lines 50-62. *)
Definition make_data (now : string) (self : Dashboard) : json :=
  JObj [ ("type", JStr "update");
         ("timestamp", JStr now);
         ("metrics", metrics_dict (metrics self));
         ("live_trades", JArr (trade_dict <$> slice_last 10 (live_trades self)));
         ("system_status", system_status) ]%string.

(** Python's truth value of a set: it is not empty. *)
Definition truthy (cs : gset nat) : bool := bool_decide (cs ≠ ∅).

(** Lines 46-69, the body of [while self.running] without the sleep. *)
Definition tick (env : Env) (self : Dashboard) : Dashboard * Effects :=
  if truthy (clients self) then
    let self := generate_live_data (env_draws env) self in
    let data := make_data (env_now env) self in
    if truthy (clients self) then
      let targets := elements (clients self) in
      let attempts := (λ c, (c, data, env_send env c data)) <$> targets in
      match gather true (snd <$> attempts) with
      | Ok _ =>
          (self, {| dumps_calls := length targets; sends := attempts;
                    escaped := None |})
      | Raise e =>
          (self, {| dumps_calls := length targets; sends := attempts;
                    escaped := Some e |})
      end
    else (self, no_effects)
  else (self, no_effects).

(** [broadcast_data] (lines 44-71): the loop runs as long as
    [self.running] holds; the list of environments is the number of
    iterations that are observed. *)
Fixpoint broadcast_data (envs : list Env) (self : Dashboard)
  : Dashboard * list Effects :=
  match envs with
  | [] => (self, [])
  | env :: rest =>
      if running self then
        let '(self', eff) := tick env self in
        let '(final, effs) := broadcast_data rest self' in
        (final, eff :: effs)
      else (self, [])
  end.

(** ** The dashboard as a transition system

    The event loop interleaves the connection handlers with the
    broadcast loop; each input below is one piece of code that runs
    without yielding.  The only await inside an iteration of the
    broadcast is the gather, which comes after the sends have been built
    from the set of clients: for what is sent, a connection that opens or
    closes during the gather acts on the set as if it came right after
    the iteration.  The state in which the iteration itself returns is
    that of [tick_await] below. *)

Inductive input : Type :=
| Connect (w : websocket)       (* register_client, up to the wait *)
| Disconnect (w : websocket)    (* register_client, the finally clause *)
| Tick (env : Env).             (* one iteration of broadcast_data *)

Definition step (self : Dashboard) (i : input) : Dashboard * Effects :=
  match i with
  | Connect w => (join w self, no_effects)
  | Disconnect w =>
      match leave w self with
      | (Ok _, self') => (self', no_effects)
      | (Raise e, self') =>
          (self', {| dumps_calls := 0; sends := []; escaped := Some e |})
      end
  | Tick env => if running self then tick env self else (self, no_effects)
  end.

(** The state after a sequence of inputs, and all it sent on the way. *)
Fixpoint run (self : Dashboard) (inputs : list input)
  : Dashboard * list (websocket * json * result unit) :=
  match inputs with
  | [] => (self, [])
  | i :: rest =>
      let '(self', eff) := step self i in
      let '(final, sent) := run self' rest in
      (final, sends eff ++ sent)
  end.

(** [register_client] (lines 35-42) as a whole: the handler adds its
    connection, waits while the inputs [during] happen, and removes the
    connection in its finally clause. *)
Definition register_client (w : websocket) (during : list input)
    (self : Dashboard) : result unit * Dashboard :=
  let self := join w self in
  let self := (run self during).1 in
  leave w self.

(** *** The await of line 66

    An iteration that has clients builds its sends from the set of
    clients and then waits for them at line 66.  While it waits, the event
    loop runs connection handlers: a new connection reaches line 36, a
    closed one reaches line 41 (a [KeyError] there ends that handler and
    nothing else).  The iteration returns in the state that these
    handlers leave.  An iteration without clients does not reach line
    66.  The sends are assumed to complete; one that stays pending holds
    up the loop for good, and no iteration returns. *)




Definition input_ok (self : Dashboard) (i : input) : Prop :=
  match i with
  | Tick env => draws_ok self (env_draws env)
  | _ => True
  end.

(** The ranges of ai_confidence and risk_score. *)
Definition in_ranges (self : Dashboard) : Prop :=
  between 0.75 (ai_confidence (metrics self)) 1.0 ∧
  between 0.05 (risk_score (metrics self)) 0.25.

(** ** Sample inputs, used to run the definitions *)

Definition sample_trade_draws : TradeDraws := {|
  r_token := 3;
  r_side := 1;
  r_amount := 12345.678;
  r_price := 0.0012345678;
  r_latency := 99.95;
  r_time := 1700000000.1234;
  r_now := "2024-01-01T00:00:00.000001";
  r_source := 2;
  r_exchange := 0
|}.

Definition sample_draws (gate : Q) : Draws := {|
  r_orders := 3;
  r_volume := 20000.5;
  r_avg_latency := 75.25;
  r_confidence := 0.125;
  r_risk := 0.1;
  r_memecoin := 2;
  r_profit := -50.5;
  r_gate := gate;
  r_trade := sample_trade_draws
|}.

(** An environment in which sending fails exactly for the connections
    listed in [broken]. *)
Definition sample_env (gate : Q) (broken : list websocket) : Env := {|
  env_draws := sample_draws gate;
  env_now := "2024-01-01T00:00:00.100000";
  env_send := λ c _, if bool_decide (c ∈ broken)
                     then Raise ConnectionClosed else Ok ()
|}.

Definition sample_trade : Trade.t := make_trade init sample_trade_draws.

(** An environment whose trade is made [n] seconds after the epoch, and
    in which every send succeeds. *)
Definition numbered_env (n : nat) : Env := {|
  env_draws := {|
    r_orders := 1;
    r_volume := 1000;
    r_avg_latency := 50;
    r_confidence := 0;
    r_risk := 0.05;
    r_memecoin := 0;
    r_profit := 500;
    r_gate := 0.9;
    r_trade := {|
      r_token := n `mod` 10;
      r_side := n `mod` 2;
      r_amount := 1000;
      r_price := 100000;
      r_latency := 45;
      r_time := inject_Z (Z.of_nat n);
      r_now := "2024-01-01T00:00:00.000001";
      r_source := n `mod` 4;
      r_exchange := n `mod` 4
    |}
  |};
  env_now := "2024-01-01T00:00:00.100000";
  env_send := λ _ _, Ok ()
|}.

(** ** [generate_live_data] in binary64 arithmetic (lines 73-108)

    Here a float is a finite binary64 number, given by the rational it
    denotes, and every operation returns the binary64 number nearest to
    its exact result, ties to the even mantissa ([fl64]).  Infinities,
    NaN and the sign of zero are not represented: results beyond the
    largest finite number are outside this model.

    The calls into [random] are unfolded down to the two sources of the
    generator, as the library defines them: [random()] is [k / 2^53] for
    an integer [k] of 53 random bits, [uniform(a, b)] is
    [a + (b - a) * random()], [randint(a, b)] is [a + _randbelow(b - a + 1)]
    and [choice(seq)] is [seq[_randbelow(len(seq))]]. *)

Module F64.

(** The integer part of the binary logarithm of a positive rational. *)
Definition ilog2 (q : Q) : Z :=
  let l := Z.log2 (Qnum q) - Z.log2 (Z.pos (Qden q)) in
  if Qle_bool (2 ^ l) q then l else l - 1.

(** The exponent of the last place of the binary64 numbers around [q]:
    53 significant bits, and never below the subnormal exponent. *)
Definition expo (q : Q) : Z := Z.max (-1074) (ilog2 (Qabs q) - 52).

(** Rounding to the nearest binary64 number, ties to even. *)
Definition fl64 (q : Q) : Q :=
  (inject_Z (round_half_even (q / 2 ^ expo q)) * 2 ^ expo q)%Q.

(** The finite binary64 numbers. *)
Definition is_f64 (q : Q) : Prop :=
  ∃ m e : Z, Z.abs m < 2 ^ 53 ∧ -1074 ≤ e ≤ 971 ∧
             (q == inject_Z m * 2 ^ e)%Q.

(** [x + y], [x - y], [x * y] on floats. *)
Definition add (x y : Q) : Q := fl64 (x + y).
Definition sub (x y : Q) : Q := fl64 (x - y).
Definition mul (x y : Q) : Q := fl64 (x * y).

(** [random.random()], for the 53 bits [k] that the generator draws. *)
Definition random (k : Z) : Q := k # 2 ^ 53.

(** [random.uniform(a, b)]. *)
Definition uniform (a b : Q) (k : Z) : Q := add a (mul (sub b a) (random k)).

(** [random.randint(a, b)], for [j] drawn by [_randbelow(b - a + 1)]. *)
Definition randint (a b : Z) (j : Z) : Z := a + j.

(** [round(x, ndigits)]: the decimal with [ndigits] places nearest to the
    exact value of [x], ties to even, and then the binary64 number
    nearest to that decimal. *)
Definition round (x : Q) (ndigits : nat) : Q :=
  fl64 (inject_Z (round_half_even (x * inject_Z (10 ^ Z.of_nat ndigits)))
        / inject_Z (10 ^ Z.of_nat ndigits)).

(** [y] is [x] rounded to the multiples of [1 / p]: the binary64 number
    nearest to [k / p], for the integer [k] nearest to [x * p], the even
    one of two. *)
Definition rounded (p : Z) (x y : Q) : Prop :=
  ∃ k : Z,
    (Qabs (inject_Z k - x * inject_Z p) <= 1 # 2)%Q ∧
    ((Qabs (inject_Z k - x * inject_Z p) == 1 # 2)%Q → Z.even k = true) ∧
    y = fl64 (inject_Z k / inject_Z p).

(** What the generator and the clock give to lines 85-101. *)
Record TradeRolls : Type := {
  j_token : nat;        (* _randbelow(len(self.tokens)) *)
  j_side : nat;         (* _randbelow(2) *)
  k_amount : Z;         (* the bits of random(), in uniform(1000, 25000) *)
  k_price : Z;          (* the bits of random(), in uniform(0.001, 100000) *)
  k_latency : Z;        (* the bits of random(), in uniform(45, 200) *)
  t_time : Q;           (* time.time() *)
  t_now : string;       (* datetime.now().isoformat() *)
  j_source : nat;       (* _randbelow(4) *)
  j_exchange : nat      (* _randbelow(4) *)
}.

(** What the generator gives to lines 75-84. *)
Record Rolls : Type := {
  j_orders : Z;         (* _randbelow(5), in randint(1, 5) *)
  k_volume : Z;         (* the bits of random(), in uniform(1000, 50000) *)
  k_avg_latency : Z;    (* the bits of random(), in uniform(50, 150) *)
  k_confidence : Z;     (* the bits of random(), in uniform(0, 0.25) *)
  k_risk : Z;           (* the bits of random(), in uniform(0.05, 0.25) *)
  j_memecoin : Z;       (* _randbelow(4), in randint(0, 3) *)
  k_profit : Z;         (* the bits of random(), in uniform(-100, 500) *)
  k_gate : Z;           (* the bits of random(), in random() > 0.7 *)
  trade_rolls : TradeRolls
}.

(** The ranges of the two sources, and a clock after the epoch. *)
Definition bits (k : Z) : Prop := 0 ≤ k < 2 ^ 53.

Record trade_rolls_ok (self : Dashboard) (t : TradeRolls) : Prop := {
  ok_j_token : (j_token t < length (tokens self))%nat;
  ok_j_side : (j_side t < 2)%nat;
  ok_k_amount : bits (k_amount t);
  ok_k_price : bits (k_price t);
  ok_k_latency : bits (k_latency t);
  ok_t_time : (0 <= t_time t)%Q;
  ok_j_source : (j_source t < 4)%nat;
  ok_j_exchange : (j_exchange t < 4)%nat
}.

Record rolls_ok (self : Dashboard) (r : Rolls) : Prop := {
  ok_j_orders : 0 ≤ j_orders r < 5;
  ok_k_volume : bits (k_volume r);
  ok_k_avg_latency : bits (k_avg_latency r);
  ok_k_confidence : bits (k_confidence r);
  ok_k_risk : bits (k_risk r);
  ok_j_memecoin : 0 ≤ j_memecoin r < 4;
  ok_k_profit : bits (k_profit r);
  ok_k_gate : bits (k_gate r);
  ok_trade_rolls : trade_rolls_ok self (trade_rolls r)
}.

(** Lines 75-81.  The literals 0.75 and 0.25 are binary64 numbers, 0.05
    is not and stands for the nearest one. *)
Definition update_metrics (r : Rolls) (m : Metrics) : Metrics := {|
  orders_executed := orders_executed m + randint 1 5 (j_orders r);
  total_volume := add (total_volume m) (uniform 1000 50000 (k_volume r));
  avg_latency_us := uniform 50 150 (k_avg_latency r);
  success_rate := success_rate m;
  active_strategies := active_strategies m;
  ai_confidence := add 0.75 (uniform 0 0.25 (k_confidence r));
  risk_score := uniform (fl64 0.05) 0.25 (k_risk r);
  memecoin_scanned := memecoin_scanned m + randint 0 3 (j_memecoin r);
  profits_usd := add (profits_usd m) (uniform (-100) 500 (k_profit r))
|}.

(** Lines 85-102. *)
Definition make_trade (self : Dashboard) (t : TradeRolls) : Trade.t := {|
  Trade.id := "T" +:+ pretty (Py.int (mul (t_time t) 1000));
  Trade.timestamp := t_now t;
  Trade.token := choice (tokens self) (j_token t);
  Trade.side := choice ["BUY"; "SELL"]%string (j_side t);
  Trade.amount_usd := round (uniform 1000 25000 (k_amount t)) 2;
  Trade.price := round (uniform (fl64 0.001) 100000 (k_price t)) 6;
  Trade.latency_us := round (uniform 45 200 (k_latency t)) 1;
  Trade.status := "EXECUTED";
  Trade.source :=
    choice ["AI_SIGNAL"; "ARBITRAGE"; "MOMENTUM"; "SENTIMENT"]%string
      (j_source t);
  Trade.exchange :=
    choice ["RAYDIUM"; "ORCA"; "JUPITER"; "UNISWAP"]%string (j_exchange t)
|}.

(** Line 84: [random.random() > 0.7], with the binary64 number that the
    literal 0.7 stands for. *)
Definition new_trade (r : Rolls) : bool :=
  Py.gt (random (k_gate r)) (fl64 0.7).

Definition generate_live_data (r : Rolls) (self : Dashboard) : Dashboard :=
  let metrics' := update_metrics r (metrics self) in
  let live_trades' :=
    if new_trade r
    then record_trade (make_trade self (trade_rolls r)) (live_trades self)
    else live_trades self in
  {| clients := clients self;
     running := running self;
     metrics := metrics';
     live_trades := live_trades';
     tokens := tokens self |}.

(** Sample rolls: a trade is made with bits [gate] above
    6305039478318694. *)
Definition sample_trade_rolls : TradeRolls := {|
  j_token := 3;
  j_side := 1;
  k_amount := 4256789012345678;
  k_price := 123456789;
  k_latency := 9007199254740991;
  t_time := fl64 1700000000.001;
  t_now := "2024-01-01T00:00:00.000001";
  j_source := 2;
  j_exchange := 0
|}.

Definition sample_rolls (volume profit gate : Z) : Rolls := {|
  j_orders := 2;
  k_volume := volume;
  k_avg_latency := 2251799813685248;
  k_confidence := 4503599627370496;
  k_risk := 9007199254740991;
  j_memecoin := 3;
  k_profit := profit;
  k_gate := gate;
  trade_rolls := sample_trade_rolls
|}.

(** A state whose volume is so large that an update leaves it as it
    is. *)
Definition large_volume : Dashboard := {|
  clients := ∅;
  running := true;
  metrics := {|
    orders_executed := 0;
    total_volume := 2 ^ 70;
    avg_latency_us := 0.0;
    success_rate := 99.8;
    active_strategies := 12;
    ai_confidence := 0.85;
    risk_score := 0.15;
    memecoin_scanned := 0;
    profits_usd := 0.0
  |};
  live_trades := [];
  tokens := tokens init
|}.

End F64.

Local Abbreviation ilog2 := F64.ilog2.
Local Abbreviation expo := F64.expo.
Local Abbreviation fl64 := F64.fl64.
Local Abbreviation is_f64 := F64.is_f64.

(** ** Well-formed trades

    What lines 85-102 give to every trade they build, as a predicate on
    the elements of the history. *)
Record trade_wf (toks : list string) (t : Trade.t) : Prop := {
  wf_token : Trade.token t ∈ toks;
  wf_side : Trade.side t ∈ sides;
  wf_amount : between 1000 (Trade.amount_usd t) 25000;
  wf_price : between 0.001 (Trade.price t) 100000;
  wf_latency : between 45 (Trade.latency_us t) 200;
  wf_status : Trade.status t = "EXECUTED"%string;
  wf_source : Trade.source t ∈ sources;
  wf_exchange : Trade.exchange t ∈ exchanges
}.

(** ** [HTTPHandler.do_GET] (lines 110-114)

    The handler rewrites the request path and hands the request to
    [SimpleHTTPRequestHandler.do_GET]; this is the path it hands over. *)
Definition do_GET (path : string) : string :=
  if String.eqb path "/" then "/dashboard.html"%string else path.

(** ** The page script: the connection (lines 298-357 and 455-458)

    The script of the page that [create_dashboard_html] writes keeps one
    counter, [reconnectAttempts], and writes the class and the text of the
    status badge.  The browser owns the sockets the script constructs
    and the timers it sets; a socket fires onopen at most once and
    onclose exactly once, a timer fires once.  The variable [ws] is only
    written, it is left out. *)

Module Page.

Definition maxReconnectAttempts : nat := 5.

Record t : Type := {
  reconnectAttempts : nat;
  statusClass : string;     (* connectionStatus.className *)
  statusText : string;      (* statusText.textContent *)
  connecting : nat;         (* sockets constructed, not yet open or closed *)
  opened : nat;             (* open sockets *)
  timers : nat              (* timeouts set and not yet fired *)
}.

(** The page as the markup has it (lines 279-281), before any script
    runs. *)
Definition initial : t := {|
  reconnectAttempts := 0;
  statusClass := "connection-status";
  statusText := "CONNECTING...";
  connecting := 0;
  opened := 0;
  timers := 0
|}.

(** [connectWebSocket] (lines 318-357); [throws] tells whether the
    constructor [new WebSocket] throws. *)
Definition connectWebSocket (throws : bool) (p : t) : t :=
  if throws then
    {| reconnectAttempts := reconnectAttempts p;
       statusClass := "connection-status disconnected";
       statusText := "ERROR";
       connecting := connecting p;
       opened := opened p;
       timers := timers p |}
  else
    {| reconnectAttempts := reconnectAttempts p;
       statusClass := statusClass p;
       statusText := statusText p;
       connecting := S (connecting p);
       opened := opened p;
       timers := timers p |}.

(** [ws.onopen] (lines 322-327). *)
Definition onopen (p : t) : t :=
  {| reconnectAttempts := 0;
     statusClass := "connection-status connected";
     statusText := "LIVE";
     connecting := connecting p;
     opened := opened p;
     timers := timers p |}.

(** [ws.onclose] (lines 334-346): a timeout is set only while the counter
    is below the maximum. *)
Definition onclose (p : t) : t :=
  {| reconnectAttempts := reconnectAttempts p;
     statusClass := "connection-status disconnected";
     statusText := "OFFLINE";
     connecting := connecting p;
     opened := opened p;
     timers := if (reconnectAttempts p <? maxReconnectAttempts)%nat
               then S (timers p) else timers p |}.

(** The callback of the timeout (lines 340-344). *)
Definition ontimeout (throws : bool) (p : t) : t :=
  connectWebSocket throws
    {| reconnectAttempts := S (reconnectAttempts p);
       statusClass := statusClass p;
       statusText := statusText p;
       connecting := connecting p;
       opened := opened p;
       timers := timers p |}.

(** The listener of DOMContentLoaded (lines 456-458). *)
Definition loaded (throws : bool) : t := connectWebSocket throws initial.

(** What the browser can deliver to the script. *)
Inductive event : Type :=
| Open                       (* a connecting socket opens *)
| Close (was_open : bool)    (* an open or a connecting socket closes *)
| Error                      (* a socket reports an error *)
| Timeout (throws : bool).   (* a timer fires *)

Definition with_browser (c o k : nat) (p : t) : t :=
  {| reconnectAttempts := reconnectAttempts p;
     statusClass := statusClass p;
     statusText := statusText p;
     connecting := c;
     opened := o;
     timers := k |}.

(** One event: the browser's bookkeeping, then the handler.  [None] when
    the browser has no socket or timer that could deliver the event. *)
Definition step (ev : event) (p : t) : option t :=
  match ev with
  | Open =>
      match connecting p with
      | S c => Some (onopen (with_browser c (S (opened p)) (timers p) p))
      | O => None
      end
  | Close true =>
      match opened p with
      | S o => Some (onclose (with_browser (connecting p) o (timers p) p))
      | O => None
      end
  | Close false =>
      match connecting p with
      | S c => Some (onclose (with_browser c (opened p) (timers p) p))
      | O => None
      end
  | Error =>
      if (0 <? connecting p + opened p)%nat then Some p else None
  | Timeout throws =>
      match timers p with
      | S k =>
          Some (ontimeout throws (with_browser (connecting p) (opened p) k p))
      | O => None
      end
  end.

Fixpoint run (evs : list event) (p : t) : option t :=
  match evs with
  | [] => Some p
  | ev :: rest =>
      match step ev p with
      | Some p' => run rest p'
      | None => None
      end
  end.

(** How many timers fire in a sequence of events: the reconnections. *)
Fixpoint timeouts (evs : list event) : nat :=
  match evs with
  | [] => 0
  | Timeout _ :: rest => S (timeouts rest)
  | _ :: rest => timeouts rest
  end.

(** At most one socket or timer is alive, the counter is within its
    maximum, and a timer is pending only below the maximum. *)
Definition inv (p : t) : Prop :=
  (connecting p + opened p + timers p ≤ 1)%nat ∧
  (reconnectAttempts p ≤ maxReconnectAttempts)%nat ∧
  (0 < timers p → reconnectAttempts p < maxReconnectAttempts)%nat.

End Page.

(** ** The page script: rendering (lines 302-316 and 359-453)

    The values of the script are those that [JSON.parse] gives for what
    the server can send, and [undefined].  Numbers are exact, as on the
    server side, with NaN and the infinities that conversions can yield;
    there is no null, boolean or negative zero.  The functions of the
    JavaScript library that format or parse numbers are taken as given
    ([Builtins]).  The static markup between the interpolations of the
    template is constant text and is left out: [updateDashboard] returns
    the interpolated texts, in the order of the template. *)

Module JS.

Inductive number : Type :=
| Finite (q : Q)
| NaN
| Infinity (negative : bool).

Inductive value : Type :=
| Undefined
| Null
| Bool (b : bool)
| Num (n : number)
| Str (s : string)
| Arr (items : list value)
| Obj (fields : list (string * value)).

(** A handler runs to its end or throws a TypeError. *)
Inductive outcome (A : Type) : Type :=
| Done (a : A)
| TypeError.
Arguments Done {A} a.
Arguments TypeError {A}.

Definition bind {A B} (m : outcome A) (k : A → outcome B) : outcome B :=
  match m with
  | Done a => k a
  | TypeError => TypeError
  end.

Record Builtins : Type := {
  toFixed : Q → nat → string;        (* Number.prototype.toFixed, finite *)
  numToString : Q → string;          (* Number::toString, finite *)
  stringToNumber : string → number;  (* StringToNumber *)
  Intl_format : value → string       (* Intl.NumberFormat(...).format *)
}.

(** [JSON.parse(json.dumps(data))]; the data of the server holds no
    [None] and no booleans. *)
Fixpoint parse_dumps (j : json) : value :=
  match j with
  | JStr s => Str s
  | JInt z => Num (Finite (inject_Z z))
  | JFloat q => Num (Finite q)
  | JArr items => Arr (map parse_dumps items)
  | JObj fields => Obj (map (λ kv, (kv.1, parse_dumps kv.2)) fields)
  end.

Fixpoint own (k : string) (fields : list (string * value)) : value :=
  match fields with
  | [] => Undefined
  | (k', v) :: rest => if String.eqb k k' then v else own k rest
  end.

(** [v.k], for the property names of the script, none of which is
    inherited from a prototype. *)
Definition prop (k : string) (v : value) : outcome value :=
  match v with
  | Undefined | Null => TypeError
  | Obj fields => Done (own k fields)
  | _ => Done Undefined
  end.

Definition number_toString (B : Builtins) (n : number) : string :=
  match n with
  | Finite q => numToString B q
  | NaN => "NaN"
  | Infinity false => "Infinity"
  | Infinity true => "-Infinity"
  end.

(** [`${v}`]: ToString; an array joins its elements with commas, an
    undefined or null element giving the empty string. *)
Fixpoint ToString (B : Builtins) (v : value) : string :=
  match v with
  | Undefined => "undefined"
  | Null => "null"
  | Bool true => "true"
  | Bool false => "false"
  | Num n => number_toString B n
  | Str s => s
  | Arr items =>
      String.concat ","
        (map (λ x, match x with
                   | Undefined | Null => EmptyString
                   | _ => ToString B x
                   end) items)
  | Obj _ => "[object Object]"
  end.

Definition ToNumber (B : Builtins) (v : value) : number :=
  match v with
  | Undefined => NaN
  | Null => Finite 0
  | Bool true => Finite 1
  | Bool false => Finite 0
  | Num n => n
  | Str s => stringToNumber B s
  | Arr _ | Obj _ => stringToNumber B (ToString B v)
  end.

(** [n * c] and [n / c] for a positive constant [c]. *)
Definition times (n : number) (c : Q) : number :=
  match n with
  | Finite q => Finite (q * c)
  | _ => n
  end.

Definition over (n : number) (c : Q) : number :=
  match n with
  | Finite q => Finite (q / c)
  | _ => n
  end.

(** [n >= c]. *)
Definition ge (n : number) (c : Q) : bool :=
  match n with
  | Finite q => Qle_bool c q
  | NaN => false
  | Infinity negative => negb negative
  end.

(** [n.toFixed(d)] on a number. *)
Definition number_toFixed (B : Builtins) (n : number) (d : nat) : string :=
  match n with
  | Finite q => toFixed B q d
  | _ => number_toString B n
  end.

(** [v.toFixed(d)] on any value: only numbers have the method. *)
Definition call_toFixed (B : Builtins) (v : value) (d : nat)
  : outcome string :=
  match v with
  | Num n => Done (number_toFixed B n d)
  | _ => TypeError
  end.

(** [formatNumber] (lines 302-309). *)
Definition formatNumber (B : Builtins) (num : value) (decimals : nat)
  : outcome string :=
  if ge (ToNumber B num) 1000000 then
    Done (number_toFixed B (over (ToNumber B num) 1000000) 1 +:+ "M")
  else if ge (ToNumber B num) 1000 then
    Done (number_toFixed B (over (ToNumber B num) 1000) 1 +:+ "K")
  else call_toFixed B num decimals.

(** [formatCurrency] (lines 311-316). *)
Definition formatCurrency (B : Builtins) (amount : value) : string :=
  Intl_format B amount.

(** [v === 'BUY']. *)
Definition is_string (s : string) (v : value) : bool :=
  match v with
  | Str s' => String.eqb s' s
  | _ => false
  end.

(** One row of the trades panel (lines 440-448). *)
Record row : Type := {
  row_token : string;
  row_side_class : string;
  row_side : string;
  row_amount : string;
  row_price : string;
  row_latency : string;
  row_source : string;
  row_exchange : string
}.

Definition render_row (B : Builtins) (trade : value) : outcome row :=
  bind (prop "token" trade) (λ token,
  bind (prop "side" trade) (λ side,
  bind (prop "amount_usd" trade) (λ amount_usd,
  bind (formatNumber B amount_usd 0) (λ amount,
  bind (prop "price" trade) (λ price,
  bind (prop "latency_us" trade) (λ latency_us,
  bind (prop "source" trade) (λ source,
  bind (prop "exchange" trade) (λ exchange,
  Done {| row_token := ToString B token;
          row_side_class :=
            if is_string "BUY" side then "trade-buy" else "trade-sell";
          row_side := ToString B side;
          row_amount := amount;
          row_price := ToString B price;
          row_latency := ToString B latency_us;
          row_source := ToString B source;
          row_exchange := ToString B exchange |})))))))).

(** [f] on every element, from the left, up to the first throw. *)
Fixpoint map_outcome {A C} (f : A → outcome C) (l : list A)
  : outcome (list C) :=
  match l with
  | [] => Done []
  | x :: rest =>
      bind (f x) (λ y, bind (map_outcome f rest) (λ ys, Done (y :: ys)))
  end.

(** [v.slice().reverse().map(f)] (line 439): only an array has all
    three methods. *)
Definition reversed_map {C} (f : value → outcome C) (v : value)
  : outcome (list C) :=
  match v with
  | Arr items => map_outcome f (rev items)
  | _ => TypeError
  end.

(** The interpolated texts of the template (lines 363-451). *)
Record view : Type := {
  shown_orders_executed : string;
  shown_total_volume : string;
  shown_avg_latency : string;
  shown_success_rate : string;
  shown_ai_confidence : string;
  shown_active_strategies : string;
  shown_risk_score : string;
  shown_memecoin_scanned : string;
  shown_core_engine : string;
  shown_ai_system : string;
  shown_execution_engine : string;
  shown_profits_class : string;
  shown_profits : string;
  shown_rows : list row
}.

(** [data.a.b]. *)
Definition prop2 (a b : string) (data : value) : outcome value :=
  bind (prop a data) (prop b).

(** [updateDashboard] (lines 359-453): [Done None] when the message is
    not an update and the page is left alone, [Done (Some v)] when the
    panel is replaced, [TypeError] when the template throws and the panel
    is left alone. *)
Definition updateDashboard (B : Builtins) (data : value)
  : outcome (option view) :=
  bind (prop "type" data) (λ type,
  if is_string "update" type then
    bind (prop2 "metrics" "orders_executed" data) (λ x1,
    bind (formatNumber B x1 2) (λ orders,
    bind (prop2 "metrics" "total_volume" data) (λ x2,
    bind (prop2 "metrics" "avg_latency_us" data) (λ x3,
    bind (call_toFixed B x3 1) (λ latency,
    bind (prop2 "metrics" "success_rate" data) (λ x4,
    bind (call_toFixed B x4 1) (λ success,
    bind (prop2 "metrics" "ai_confidence" data) (λ x5,
    bind (prop2 "metrics" "active_strategies" data) (λ x6,
    bind (prop2 "metrics" "risk_score" data) (λ x7,
    bind (prop2 "metrics" "memecoin_scanned" data) (λ x8,
    bind (formatNumber B x8 2) (λ memecoins,
    bind (prop2 "system_status" "core_engine" data) (λ x9,
    bind (prop2 "system_status" "ai_system" data) (λ x10,
    bind (prop2 "system_status" "execution_engine" data) (λ x11,
    bind (prop2 "metrics" "profits_usd" data) (λ x12,
    bind (prop "live_trades" data) (λ trades,
    bind (reversed_map (render_row B) trades) (λ rs,
    Done (Some
      {| shown_orders_executed := orders;
         shown_total_volume := formatCurrency B x2;
         shown_avg_latency := latency;
         shown_success_rate := success;
         shown_ai_confidence :=
           number_toFixed B (times (ToNumber B x5) 100) 1;
         shown_active_strategies := ToString B x6;
         shown_risk_score := number_toFixed B (times (ToNumber B x7) 100) 1;
         shown_memecoin_scanned := memecoins;
         shown_core_engine := ToString B x9;
         shown_ai_system := ToString B x10;
         shown_execution_engine := ToString B x11;
         shown_profits_class :=
           if ge (ToNumber B x12) 0 then "trade-buy" else "trade-sell";
         shown_profits := formatCurrency B x12;
         shown_rows := rs |})))))))))))))))))))
  else Done None).

(** *** The page for a state of the server

    The template read on the typed data of the server: what
    [formatNumber] gives on a finite number, the row of a trade and the
    view of a dashboard.  That the script computes exactly these from the
    messages of the server is proved below. *)

Definition formatNumber_finite (B : Builtins) (q : Q) (decimals : nat)
  : string :=
  if Qle_bool 1000000 q then toFixed B (q / 1000000) 1 +:+ "M"
  else if Qle_bool 1000 q then toFixed B (q / 1000) 1 +:+ "K"
  else toFixed B q decimals.

Definition trade_row (B : Builtins) (t : Trade.t) : row := {|
  row_token := Trade.token t;
  row_side_class :=
    if String.eqb (Trade.side t) "BUY" then "trade-buy" else "trade-sell";
  row_side := Trade.side t;
  row_amount := formatNumber_finite B (Trade.amount_usd t) 0;
  row_price := numToString B (Trade.price t);
  row_latency := numToString B (Trade.latency_us t);
  row_source := Trade.source t;
  row_exchange := Trade.exchange t
|}.

Definition dashboard_view (B : Builtins) (self : Dashboard) : view :=
  let m := metrics self in {|
  shown_orders_executed :=
    formatNumber_finite B (inject_Z (orders_executed m)) 2;
  shown_total_volume :=
    formatCurrency B (Num (Finite (total_volume m)));
  shown_avg_latency := toFixed B (avg_latency_us m) 1;
  shown_success_rate := toFixed B (success_rate m) 1;
  shown_ai_confidence := toFixed B (ai_confidence m * 100) 1;
  shown_active_strategies :=
    numToString B (inject_Z (active_strategies m));
  shown_risk_score := toFixed B (risk_score m * 100) 1;
  shown_memecoin_scanned :=
    formatNumber_finite B (inject_Z (memecoin_scanned m)) 2;
  shown_core_engine := "ONLINE";
  shown_ai_system := "PROCESSING";
  shown_execution_engine := "ULTRA_FAST";
  shown_profits_class :=
    if Qle_bool 0 (profits_usd m)
    then "trade-buy" else "trade-sell";
  shown_profits := formatCurrency B (Num (Finite (profits_usd m)));
  shown_rows := map (trade_row B) (rev (slice_last 10 (live_trades self)))
|}.

(** Stand-ins for the library, to run the definitions. *)
Definition sample_builtins : Builtins := {|
  toFixed := λ q d, pretty (Qfloor q);
  numToString := λ q, pretty (Qfloor q);
  stringToNumber := λ _, NaN;
  Intl_format := λ _, "$"
|}.

End JS.

(** Closed numeric side conditions. *)
Ltac numbers :=
  repeat split; simpl;
  try (unfold Qle, Qlt, Qeq; simpl; lia); try lia; try reflexivity.

(** Closed facts of binary64 arithmetic, by computation. *)
Ltac binary64 :=
  vm_compute;
  repeat match goal with |- _ ∧ _ => split end;
  lazymatch goal with
  | |- _ = _ => reflexivity
  | |- _ → False => let H := fresh in intro H; discriminate H
  | |- True => exact I
  | |- (_ ≤ _)%nat => lia
  end.

(** * Properties *)

(** ** Python primitives *)

Section slice_last.
Context {A : Type}.
Implicit Types l : list A.

Lemma slice_last_length n l :
  (0 < n)%nat → length (slice_last n l) = (n `min` length l)%nat.
Proof.
  intros Hn. destruct n as [|n]; [lia|].
  unfold slice_last. rewrite length_drop. lia.
Qed.

Lemma slice_last_short n l :
  (length l ≤ n)%nat → slice_last n l = l.
Proof.
  intros Hle. destruct n as [|n]; [done|].
  unfold slice_last. by replace (length l - S n)%nat with 0%nat by lia.
Qed.

Lemma slice_last_suffix n l : slice_last n l `suffix_of` l.
Proof. destruct n; [done|]. apply suffix_drop. Qed.

(** One element too many: exactly the head goes. *)
Lemma slice_last_overflow n l x :
  length l = S n → slice_last (S n) (l ++ [x]) = drop 1 l ++ [x].
Proof.
  intros Hlen. unfold slice_last.
  rewrite length_app, Hlen. simpl length.
  replace (S n + 1 - S n)%nat with 1%nat by lia.
  destruct l; [done|]. reflexivity.
Qed.
End slice_last.

Lemma gt_spec (x y : Q) : Py.gt x y = true ↔ (y < x)%Q.
Proof.
  unfold Py.gt. rewrite negb_true_iff.
  destruct (Qle_bool x y) eqn:E.
  - apply Qle_bool_iff in E. split; [done|]. intros ?. lra.
  - split; [|done]. intros _.
    destruct (Qlt_le_dec y x) as [?|Hle]; [done|].
    apply Qle_bool_iff in Hle. congruence.
Qed.

Lemma choice_in (seq : list string) (k : nat) :
  (k < length seq)%nat → choice seq k ∈ seq.
Proof.
  intros Hk. unfold choice. apply list_elem_of_In. by apply nth_In.
Qed.

(** [round_half_even] is a nearest integer. *)
Lemma round_half_even_near (y : Q) :
  (Qabs (inject_Z (round_half_even y) - y) <= 1 # 2)%Q.
Proof.
  unfold round_half_even.
  pose proof (Qfloor_le y) as Hlo. pose proof (Qlt_floor y) as Hhi.
  rewrite inject_Z_plus in Hhi. change (inject_Z 1) with 1%Q in Hhi.
  apply Qabs_Qle_condition.
  destruct (y - inject_Z (Qfloor y) ?= 1 # 2)%Q eqn:E.
  - apply Qeq_alt in E. destruct (Z.even (Qfloor y));
      rewrite ?inject_Z_plus; change (inject_Z 1) with 1%Q; split; lra.
  - apply Qlt_alt in E. split; lra.
  - apply Qgt_alt in E. rewrite inject_Z_plus.
    change (inject_Z 1) with 1%Q. split; lra.
Qed.

(** It never leaves an interval with integer ends. *)
Lemma round_half_even_between (a b : Z) (y : Q) :
  (inject_Z a <= y)%Q → (y <= inject_Z b)%Q →
  a ≤ round_half_even y ≤ b.
Proof.
  intros Ha Hb.
  assert (a ≤ Qfloor y) as Hfa.
  { rewrite <- (Qfloor_Z a). by apply Qfloor_resp_le. }
  assert (Qfloor y ≤ b) as Hfb.
  { rewrite <- (Qfloor_Z b). by apply Qfloor_resp_le. }
  unfold round_half_even.
  destruct (y - inject_Z (Qfloor y) ?= 1 # 2)%Q eqn:E.
  - apply Qeq_alt in E.
    assert (Qfloor y ≠ b) as Hne.
    { intros Heq. rewrite Heq in E. lra. }
    destruct (Z.even (Qfloor y)); lia.
  - lia.
  - apply Qgt_alt in E.
    assert (Qfloor y ≠ b) as Hne.
    { intros Heq. rewrite Heq in E. lra. }
    lia.
Qed.

Lemma scale_pos (n : nat) : (0 < inject_Z (10 ^ Z.of_nat n))%Q.
Proof.
  change 0%Q with (inject_Z 0). rewrite <- Zlt_Qlt.
  apply Z.pow_pos_nonneg; lia.
Qed.

(** [round(x, n)] is a multiple of [10^-n] ... *)
Lemma round_on_grid (x : Q) (n : nat) :
  (Py.round x n * inject_Z (10 ^ Z.of_nat n)
   == inject_Z (round_half_even (x * inject_Z (10 ^ Z.of_nat n))))%Q.
Proof.
  unfold Py.round. pose proof (scale_pos n). field. lra.
Qed.

(** ... at distance at most [10^-n / 2] from [x] ... *)
Lemma round_near (x : Q) (n : nat) :
  (Qabs (Py.round x n - x) * inject_Z (10 ^ Z.of_nat n) <= 1 # 2)%Q.
Proof.
  pose proof (scale_pos n) as Hs.
  pose proof (round_half_even_near (x * inject_Z (10 ^ Z.of_nat n))) as Hn.
  assert (E : ((Py.round x n - x) * inject_Z (10 ^ Z.of_nat n)
               == inject_Z (round_half_even (x * inject_Z (10 ^ Z.of_nat n)))
                  - x * inject_Z (10 ^ Z.of_nat n))%Q).
  { unfold Py.round. field. lra. }
  rewrite <- E, Qabs_Qmult, (Qabs_pos (inject_Z _)) in Hn by lra.
  exact Hn.
Qed.

(** ... and it stays between bounds that are themselves such multiples. *)
Lemma round_between (lo hi x : Q) (n : nat) (a b : Z) :
  (lo * inject_Z (10 ^ Z.of_nat n) == inject_Z a)%Q →
  (hi * inject_Z (10 ^ Z.of_nat n) == inject_Z b)%Q →
  between lo x hi → between lo (Py.round x n) hi.
Proof.
  intros Ea Eb [Hlo Hhi]. pose proof (scale_pos n) as Hs.
  destruct (round_half_even_between a b (x * inject_Z (10 ^ Z.of_nat n)))
    as [Hra Hrb].
  { rewrite <- Ea. apply Qmult_le_compat_r; lra. }
  { rewrite <- Eb. apply Qmult_le_compat_r; lra. }
  rewrite Zle_Qle in Hra, Hrb. unfold Py.round. split.
  - apply Qle_shift_div_l; [done|]. by rewrite Ea.
  - apply Qle_shift_div_r; [done|]. by rewrite Eb.
Qed.

(** ** The event history (lines 104-108) *)

Lemma record_trade_length (t : Trade.t) (h : list Trade.t) :
  (length (record_trade t h) ≤ 100)%nat.
Proof.
  unfold record_trade.
  destruct (100 <? length (h ++ [t]))%nat eqn:E.
  - rewrite slice_last_length by lia. lia.
  - apply Nat.ltb_ge in E. done.
Qed.

Lemma record_trade_room (t : Trade.t) (h : list Trade.t) :
  (length h < 100)%nat → record_trade t h = h ++ [t].
Proof.
  intros Hlen. unfold record_trade.
  destruct (100 <? length (h ++ [t]))%nat eqn:E; [|done].
  apply Nat.ltb_lt in E. rewrite length_app in E. simpl in E. lia.
Qed.

Lemma record_trade_full (t : Trade.t) (h : list Trade.t) :
  length h = 100%nat → record_trade t h = drop 1 h ++ [t].
Proof.
  intros Hlen. unfold record_trade.
  destruct (100 <? length (h ++ [t]))%nat eqn:E.
  - by apply slice_last_overflow.
  - apply Nat.ltb_ge in E. rewrite length_app in E. simpl in E. lia.
Qed.

Lemma record_trade_suffix (t : Trade.t) (h : list Trade.t) :
  record_trade t h `suffix_of` h ++ [t].
Proof.
  unfold record_trade. case_match; [apply slice_last_suffix | done].
Qed.

Lemma record_trade_last (t : Trade.t) (h : list Trade.t) :
  last (record_trade t h) = Some t.
Proof.
  destruct (decide (length h < 100)%nat) as [Hlt|Hge].
  - rewrite record_trade_room by done. apply last_snoc.
  - unfold record_trade. case_match; [|apply last_snoc].
    unfold slice_last. rewrite length_app. simpl length.
    rewrite drop_app_le by lia. apply last_snoc.
Qed.

Lemma record_all_length (h ts : list Trade.t) :
  (length h ≤ 100)%nat → (length (record_all h ts) ≤ 100)%nat.
Proof.
  revert h. induction ts as [|t ts IH]; intros h Hh; [done|].
  simpl. apply IH, record_trade_length.
Qed.

(** C2. Whatever insertions the history has seen, it holds at most 100
    trades, and so does the history after one more insertion; the
    insertion into a full history drops exactly the oldest trade and keeps
    the others in their order, followed by the new one; below capacity
    nothing is dropped. *)
Theorem history_bounded_fifo (h0 ts : list Trade.t) (t : Trade.t) :
  (length h0 ≤ 100)%nat →
  let h := record_all h0 ts in
  (length h ≤ 100)%nat ∧
  (length (record_trade t h) ≤ 100)%nat ∧
  (length h = 100%nat → record_trade t h = drop 1 h ++ [t]) ∧
  (length h < 100 → record_trade t h = h ++ [t])%nat.
Proof.
  intros Hh0 h. split_and!.
  - by apply record_all_length.
  - apply record_trade_length.
  - apply record_trade_full.
  - apply record_trade_room.
Qed.

Lemma history_bounded_fifo_witness :
  let h := record_all [] (replicate 100 sample_trade) in
  (length h ≤ 100)%nat ∧
  record_trade sample_trade h = drop 1 h ++ [sample_trade].
Proof.
  destruct (history_bounded_fifo [] (replicate 100 sample_trade) sample_trade)
    as (Hbound & _ & Hfull & _).
  - simpl. lia.
  - split; [exact Hbound|]. apply Hfull. vm_compute. reflexivity.
Defined.

(** ** The initial state (lines 18-33) *)

(** C10. A fresh dashboard has no trades and the documented initial
    metrics, which already satisfy the capacity bound and the ranges of
    ai_confidence and risk_score. *)
Theorem init_state :
  live_trades init = [] ∧
  metrics init =
    {| orders_executed := 0; total_volume := 0.0; avg_latency_us := 0.0;
       success_rate := 99.8; active_strategies := 12; ai_confidence := 0.85;
       risk_score := 0.15; memecoin_scanned := 0; profits_usd := 0.0 |} ∧
  (length (live_trades init) ≤ 100)%nat ∧
  between 0.75 (ai_confidence (metrics init)) 1.0 ∧
  between 0.05 (risk_score (metrics init)) 0.25.
Proof.
  split_and!; try reflexivity.
  - simpl. lia.
  - split; simpl; lra.
  - split; simpl; lra.
Qed.

(** ** The update generator (lines 73-108) *)

Lemma new_trade_spec (d : Draws) :
  new_trade d = true ↔ (gate_threshold < r_gate d)%Q.
Proof. apply gt_spec. Qed.

Lemma make_trade_fields (self : Dashboard) (t : TradeDraws) :
  trade_draws_ok self t →
  let e := make_trade self t in
  Trade.token e ∈ tokens self ∧ Trade.side e ∈ sides ∧
  Trade.source e ∈ sources ∧ Trade.exchange e ∈ exchanges ∧
  Trade.status e = "EXECUTED"%string.
Proof.
  intros [Htok Hside _ _ _ Hsrc Hexch]. simpl.
  split_and!; try by apply choice_in. done.
Qed.

(** The rounded figures of a trade stay in the ranges of their draws. *)
Lemma make_trade_ranges (self : Dashboard) (t : TradeDraws) :
  trade_draws_ok self t →
  let e := make_trade self t in
  between 1000 (Trade.amount_usd e) 25000 ∧
  between 0.001 (Trade.price e) 100000 ∧
  between 45 (Trade.latency_us e) 200.
Proof.
  intros [_ _ Ha Hp Hl _ _]. simpl. split_and!.
  - by apply (round_between _ _ _ 2 100000 2500000); [numbers..|].
  - by apply (round_between _ _ _ 6 1000 100000000000); [numbers..|].
  - by apply (round_between _ _ _ 1 450 2000); [numbers..|].
Qed.

(** ** Binary64 arithmetic *)


Lemma p2_pos (e : Z) : (0 < 2 ^ e)%Q.
Proof. by apply Qpower_0_lt. Qed.

Lemma p2_add (a b : Z) : (2 ^ (a + b) == 2 ^ a * 2 ^ b)%Q.
Proof. by apply Qpower_plus. Qed.

Lemma p2_le (a b : Z) : a ≤ b → (2 ^ a <= 2 ^ b)%Q.
Proof. intros H. by apply Qpower_le_compat_l. Qed.

Lemma p2_lt_inv (a b : Z) : (2 ^ a < 2 ^ b)%Q → a < b.
Proof. intros H. by apply (Qpower_lt_compat_l_inv 2). Qed.

Lemma p2_Z (a : Z) : 0 ≤ a → (2 ^ a == inject_Z (2 ^ a))%Q.
Proof. intros H. by rewrite Zpower_Qpower. Qed.

Lemma p2_sub (a b : Z) : (2 ^ (a - b) == 2 ^ a / 2 ^ b)%Q.
Proof. by apply Qpower_minus. Qed.

Lemma Zfrac_lt (A B C D : Z) :
  0 < B → 0 < D → A * D < C * B →
  (inject_Z A / inject_Z B < inject_Z C / inject_Z D)%Q.
Proof.
  intros HB HD H.
  assert (0 < inject_Z B)%Q by (by rewrite <- (Zlt_Qlt 0)).
  assert (0 < inject_Z D)%Q by (by rewrite <- (Zlt_Qlt 0)).
  apply Qlt_shift_div_r; [done|].
  assert (E : (inject_Z C / inject_Z D * inject_Z B
               == inject_Z C * inject_Z B / inject_Z D)%Q) by (field; lra).
  rewrite E.
  apply Qlt_shift_div_l; [done|].
  rewrite <- !inject_Z_mult. by rewrite <- Zlt_Qlt.
Qed.

Lemma ilog2_spec (q : Q) :
  (0 < q)%Q → (2 ^ ilog2 q <= q)%Q ∧ (q < 2 ^ (ilog2 q + 1))%Q.
Proof.
  intros Hq. destruct q as [n d].
  assert (0 < n) as Hn by (unfold Qlt in Hq; simpl in Hq; lia).
  unfold ilog2. cbn [Qnum Qden].
  set (a := Z.log2 n). set (b := Z.log2 (Z.pos d)).
  destruct (Z.log2_spec n Hn) as [Ha1 Ha2]. fold a in Ha1, Ha2.
  destruct (Z.log2_spec (Z.pos d) ltac:(lia)) as [Hb1 Hb2].
  fold b in Hb1, Hb2.
  assert (0 ≤ a) by apply Z.log2_nonneg.
  assert (0 ≤ b) by apply Z.log2_nonneg.
  assert (0 < 2 ^ a) by (apply Z.pow_pos_nonneg; lia).
  assert (0 < 2 ^ b) by (apply Z.pow_pos_nonneg; lia).
  rewrite <- !Z.add_1_r in *.
  assert (Hqd : (n # d == inject_Z n / inject_Z (Z.pos d))%Q)
    by apply Qmake_Qdiv.
  assert (Hup : (n # d < 2 ^ (a - b + 1))%Q).
  { replace (a - b + 1) with ((a + 1) - b) by lia.
    rewrite p2_sub, !p2_Z, Hqd by lia.
    apply Zfrac_lt; [lia|lia|]. nia. }
  assert (Hlo : (2 ^ (a - b - 1) < n # d)%Q).
  { replace (a - b - 1) with (a - (b + 1)) by lia.
    rewrite p2_sub, !p2_Z, Hqd by lia.
    apply Zfrac_lt; [|lia|]; [apply Z.pow_pos_nonneg; lia|]. nia. }
  destruct (Qle_bool (2 ^ (a - b)) (n # d)) eqn:E.
  - apply Qle_bool_iff in E. done.
  - split; [lra|]. replace (a - b - 1 + 1) with (a - b) by lia.
    destruct (Qlt_le_dec (n # d) (2 ^ (a - b))) as [?|Hle]; [done|].
    apply Qle_bool_iff in Hle. congruence.
Qed.

Lemma ilog2_mono (x y : Q) : (0 < x)%Q → (x <= y)%Q → ilog2 x ≤ ilog2 y.
Proof.
  intros Hx Hxy.
  destruct (ilog2_spec x Hx) as [Hx1 _].
  destruct (ilog2_spec y ltac:(lra)) as [_ Hy2].
  assert (2 ^ ilog2 x < 2 ^ (ilog2 y + 1))%Q as H by lra.
  apply p2_lt_inv in H. lia.
Qed.

(** round_half_even *)
Lemma rhe_cases (y : Q) :
  round_half_even y = Qfloor y ∨ round_half_even y = Qfloor y + 1.
Proof.
  unfold round_half_even.
  destruct (y - inject_Z (Qfloor y) ?= 1 # 2)%Q; [|by left|by right].
  destruct (Z.even (Qfloor y)); [by left|by right].
Qed.

Lemma rhe_lower (a : Z) (y : Q) : (inject_Z a <= y)%Q → a ≤ round_half_even y.
Proof.
  intros Ha.
  assert (a ≤ Qfloor y).
  { rewrite <- (Qfloor_Z a). by apply Qfloor_resp_le. }
  destruct (rhe_cases y); lia.
Qed.

Lemma rhe_upper (b : Z) (y : Q) : (y <= inject_Z b)%Q → round_half_even y ≤ b.
Proof.
  intros Hb.
  assert (Qfloor y ≤ b) as Hfb.
  { rewrite <- (Qfloor_Z b). by apply Qfloor_resp_le. }
  unfold round_half_even.
  destruct (y - inject_Z (Qfloor y) ?= 1 # 2)%Q eqn:E.
  - apply Qeq_alt in E.
    assert (Qfloor y ≠ b) by (intros Heq; rewrite Heq in E; lra).
    destruct (Z.even (Qfloor y)); lia.
  - lia.
  - apply Qgt_alt in E.
    assert (Qfloor y ≠ b) by (intros Heq; rewrite Heq in E; lra).
    lia.
Qed.

Lemma rhe_mono (x y : Q) : (x <= y)%Q → round_half_even x ≤ round_half_even y.
Proof.
  intros Hxy. pose proof (Qfloor_resp_le x y Hxy) as Hf.
  destruct (decide (Qfloor x = Qfloor y)) as [Heq|Hne].
  - unfold round_half_even. rewrite <- Heq.
    destruct (x - inject_Z (Qfloor x) ?= 1 # 2)%Q eqn:Ex;
    destruct (y - inject_Z (Qfloor x) ?= 1 # 2)%Q eqn:Ey;
      first [apply Qeq_alt in Ex | apply Qlt_alt in Ex | apply Qgt_alt in Ex];
      first [apply Qeq_alt in Ey | apply Qlt_alt in Ey | apply Qgt_alt in Ey];
      try (exfalso; lra); destruct (Z.even (Qfloor x)); lia.
  - destruct (rhe_cases x), (rhe_cases y); lia.
Qed.

Lemma rhe_eq (x y : Q) : (x == y)%Q → round_half_even x = round_half_even y.
Proof.
  intros H. apply Z.le_antisymm; apply rhe_mono; lra.
Qed.

(** scaled mantissa *)
Lemma scaled_abs (q : Q) :
  (0 < Qabs q)%Q →
  (Qabs q / 2 ^ expo q < inject_Z (2 ^ 53))%Q ∧
  (-1074 < expo q → (inject_Z (2 ^ 52) <= Qabs q / 2 ^ expo q)%Q).
Proof.
  intros Hq. destruct (ilog2_spec _ Hq) as [Hlo Hhi].
  pose proof (p2_pos (expo q)) as He. unfold expo in *.
  set (L := ilog2 (Qabs q)) in *. set (e := Z.max (-1074) (L - 52)) in *.
  split.
  - apply Qlt_shift_div_r; [done|].
    rewrite <- p2_Z, <- p2_add by lia.
    eapply Qlt_le_trans; [exact Hhi|]. apply p2_le. lia.
  - intros Hsub. assert (e = L - 52) as -> by lia.
    apply Qle_shift_div_l; [done|].
    rewrite <- p2_Z, <- p2_add by lia.
    eapply Qle_trans; [|exact Hlo]. apply p2_le. lia.
Qed.

Lemma expo_mono (x y : Q) :
  (0 < Qabs x)%Q → (Qabs x <= Qabs y)%Q → expo x ≤ expo y.
Proof.
  intros Hx Hxy. unfold expo.
  pose proof (ilog2_mono _ _ Hx Hxy). lia.
Qed.

Lemma fl64_zero (q : Q) : (q == 0)%Q → (fl64 q == 0)%Q.
Proof.
  intros Hq. unfold fl64.
  rewrite (rhe_eq _ 0); [reflexivity|]. unfold Qdiv.
  transitivity (0 * / 2 ^ expo q)%Q; [|ring].
  apply Qmult_comp; [exact Hq|reflexivity].
Qed.

Lemma fl64_nonneg (q : Q) : (0 <= q)%Q → (0 <= fl64 q)%Q.
Proof.
  intros Hq. unfold fl64. pose proof (p2_pos (expo q)) as He.
  apply Qmult_le_0_compat; [|lra].
  change 0%Q with (inject_Z 0). rewrite <- Zle_Qle. apply rhe_lower.
  change (inject_Z 0) with 0%Q. apply Qle_shift_div_l; [done|]. lra.
Qed.

Lemma fl64_nonpos (q : Q) : (q <= 0)%Q → (fl64 q <= 0)%Q.
Proof.
  intros Hq. unfold fl64. pose proof (p2_pos (expo q)) as He.
  assert (round_half_even (q / 2 ^ expo q) ≤ 0) as Hm.
  { apply rhe_upper. change (inject_Z 0) with 0%Q.
    apply Qle_shift_div_r; [done|]. lra. }
  rewrite Zle_Qle in Hm. change (inject_Z 0) with 0%Q in Hm.
  apply Qle_trans with (0 * 2 ^ expo q)%Q; [|lra].
  apply Qmult_le_compat_r; lra.
Qed.

Lemma fl64_mono_pos (x y : Q) : (0 < x)%Q → (x <= y)%Q → (fl64 x <= fl64 y)%Q.
Proof.
  intros Hx Hxy.
  assert (Qabs x == x)%Q as Ax by (apply Qabs_pos; lra).
  assert (Qabs y == y)%Q as Ay by (apply Qabs_pos; lra).
  destruct (scaled_abs x) as [Hx53 _]; [lra|].
  destruct (scaled_abs y) as [_ Hy52]; [lra|].
  rewrite Ax in Hx53. rewrite Ay in Hy52.
  pose proof (expo_mono x y ltac:(lra) ltac:(lra)) as He.
  pose proof (p2_pos (expo x)) as Hpx. pose proof (p2_pos (expo y)) as Hpy.
  unfold fl64.
  destruct (decide (expo x = expo y)) as [Heq|Hne].
  - rewrite Heq. apply Qmult_le_compat_r; [|lra].
    rewrite <- Zle_Qle. apply rhe_mono.
    apply Qle_shift_div_l; [done|].
    assert (E : (x / 2 ^ expo y * 2 ^ expo y == x)%Q) by (field; lra).
    rewrite E. done.
  - assert (expo x + 1 ≤ expo y) as Hlt by lia.
    assert (-1074 < expo y) as Hn by (unfold expo in *; lia).
    specialize (Hy52 Hn).
    apply rhe_lower in Hy52.
    assert (round_half_even (x / 2 ^ expo x) ≤ 2 ^ 53) as Hmx
      by (apply rhe_upper; lra).
    rewrite Zle_Qle in Hy52, Hmx.
    apply Qle_trans with (inject_Z (2 ^ 53) * 2 ^ expo x)%Q.
    { apply Qmult_le_compat_r; lra. }
    apply Qle_trans with (inject_Z (2 ^ 52) * 2 ^ expo y)%Q.
    2:{ apply Qmult_le_compat_r; lra. }
    rewrite <- !p2_Z, <- !p2_add by lia. apply p2_le. lia.
Qed.

Lemma rhe_tie_even (y : Q) :
  (Qabs (inject_Z (round_half_even y) - y) == 1 # 2)%Q →
  Z.even (round_half_even y) = true.
Proof.
  unfold round_half_even.
  pose proof (Qfloor_le y) as Hlo. pose proof (Qlt_floor y) as Hhi.
  rewrite inject_Z_plus in Hhi. change (inject_Z 1) with 1%Q in Hhi.
  destruct (y - inject_Z (Qfloor y) ?= 1 # 2)%Q eqn:E;
    first [apply Qeq_alt in E | apply Qlt_alt in E | apply Qgt_alt in E].
  - destruct (Z.even (Qfloor y)) eqn:Ev; [done|]. intros _.
    rewrite Z.even_add, Ev. reflexivity.
  - intros Ht. exfalso.
    rewrite Qabs_neg in Ht by lra. lra.
  - rewrite inject_Z_plus. change (inject_Z 1) with 1%Q.
    intros Ht. exfalso. rewrite Qabs_pos in Ht by lra. lra.
Qed.

Lemma rhe_unique (m : Z) (y : Q) :
  (Qabs (inject_Z m - y) <= 1 # 2)%Q →
  ((Qabs (inject_Z m - y) == 1 # 2)%Q → Z.even m = true) →
  m = round_half_even y.
Proof.
  intros Hm Hev. pose proof (round_half_even_near y) as Hr.
  pose proof (rhe_tie_even y) as Hrev.
  set (r := round_half_even y) in *.
  apply Qabs_Qle_condition in Hm, Hr.
  assert (m - r ≤ 1) as H1.
  { rewrite Zle_Qle. unfold Z.sub. rewrite inject_Z_plus, inject_Z_opp.
    change (inject_Z 1) with 1%Q. lra. }
  assert (r - m ≤ 1) as H2.
  { rewrite Zle_Qle. unfold Z.sub. rewrite inject_Z_plus, inject_Z_opp.
    change (inject_Z 1) with 1%Q. lra. }
  destruct (decide (m = r)) as [|Hne]; [done|]. exfalso.
  assert (m = r + 1 ∨ m = r - 1) as [->| ->] by lia.
  - rewrite inject_Z_plus in Hm, Hev. change (inject_Z 1) with 1%Q in Hm, Hev.
    assert (y == inject_Z r + (1 # 2))%Q as Hy by lra.
    assert (Z.even (r + 1) = true) as E1.
    { apply Hev. rewrite Qabs_pos by lra. lra. }
    assert (Z.even r = true) as E2.
    { apply Hrev. rewrite Qabs_neg by lra. lra. }
    rewrite Z.even_add, E2 in E1. done.
  - unfold Z.sub in Hm, Hev. rewrite inject_Z_plus, inject_Z_opp in Hm, Hev.
    change (inject_Z 1) with 1%Q in Hm, Hev. fold (r - 1) in *.
    assert (y == inject_Z r - (1 # 2))%Q as Hy by lra.
    assert (Z.even (r - 1) = true) as E1.
    { apply Hev. rewrite Qabs_neg by lra. lra. }
    assert (Z.even r = true) as E2.
    { apply Hrev. rewrite Qabs_pos by lra. lra. }
    rewrite Z.even_sub, E2 in E1. done.
Qed.

Lemma rhe_opp (y : Q) : round_half_even (- y) = - round_half_even y.
Proof.
  symmetry. apply rhe_unique.
  - pose proof (round_half_even_near y) as Hr.
    rewrite inject_Z_opp.
    assert (E : (- inject_Z (round_half_even y) - - y
                 == - (inject_Z (round_half_even y) - y))%Q) by ring.
    rewrite E, Qabs_opp. done.
  - rewrite inject_Z_opp.
    assert (E : (- inject_Z (round_half_even y) - - y
                 == - (inject_Z (round_half_even y) - y))%Q) by ring.
    rewrite E, Qabs_opp. intros Ht. rewrite Z.even_opp.
    by apply rhe_tie_even.
Qed.

Lemma Qabs_opp_eq (q : Q) : Qabs (- q) = Qabs q.
Proof. destruct q as [n d]. unfold Qabs, Qopp. simpl. by rewrite Z.abs_opp. Qed.

Lemma expo_opp (q : Q) : expo (- q) = expo q.
Proof. unfold expo. by rewrite Qabs_opp_eq. Qed.

Lemma fl64_opp (q : Q) : (fl64 (- q) == - fl64 q)%Q.
Proof.
  unfold fl64. rewrite expo_opp.
  rewrite (rhe_eq (- q / 2 ^ expo q) (- (q / 2 ^ expo q))).
  - rewrite rhe_opp, inject_Z_opp. ring.
  - pose proof (p2_pos (expo q)). field. lra.
Qed.

Lemma fl64_mono (x y : Q) : (x <= y)%Q → (fl64 x <= fl64 y)%Q.
Proof.
  intros Hxy.
  destruct (Qlt_le_dec 0 x) as [Hx|Hx].
  - by apply fl64_mono_pos.
  - destruct (Qlt_le_dec y 0) as [Hy|Hy].
    + assert (fl64 (- y) <= fl64 (- x))%Q as H
        by (apply fl64_mono_pos; lra).
      rewrite !fl64_opp in H. lra.
    + pose proof (fl64_nonpos x Hx). pose proof (fl64_nonneg y Hy). lra.
Qed.

Lemma fl64_proper (x y : Q) : (x == y)%Q → (fl64 x == fl64 y)%Q.
Proof. intros H. apply Qle_antisym; apply fl64_mono; lra. Qed.

(** halfway bound *)
Lemma fl64_error (q : Q) :
  (Qabs (fl64 q - q) <= (1 # 2) * 2 ^ expo q)%Q.
Proof.
  unfold fl64. pose proof (p2_pos (expo q)) as He.
  pose proof (round_half_even_near (q / 2 ^ expo q)) as Hn.
  assert (E : (inject_Z (round_half_even (q / 2 ^ expo q)) * 2 ^ expo q - q
               == (inject_Z (round_half_even (q / 2 ^ expo q))
                   - q / 2 ^ expo q) * 2 ^ expo q)%Q) by (field; lra).
  rewrite E, Qabs_Qmult, (Qabs_pos (2 ^ expo q)) by lra.
  apply Qmult_le_compat_r; lra.
Qed.

Lemma expo_upper (q : Q) (K : Z) :
  (0 < Qabs q)%Q → (Qabs q < 2 ^ K)%Q → expo q ≤ Z.max (-1074) (K - 53).
Proof.
  intros Hq HK. destruct (ilog2_spec _ Hq) as [Hlo _].
  assert (2 ^ ilog2 (Qabs q) < 2 ^ K)%Q as H by lra.
  apply p2_lt_inv in H. unfold expo. lia.
Qed.

Lemma expo_lower (q : Q) : -1074 ≤ expo q.
Proof. unfold expo. lia. Qed.

Lemma fl64_is_f64 (q : Q) : (Qabs q < 2 ^ 1023)%Q → is_f64 (fl64 q).
Proof.
  intros Hq. destruct (Qlt_le_dec 0 (Qabs q)) as [Hpos|Hzero].
  - destruct (scaled_abs q Hpos) as [H53 _].
    pose proof (expo_upper q 1023 Hpos Hq) as Hup.
    pose proof (expo_lower q) as Hlow.
    pose proof (p2_pos (expo q)) as He.
    set (s := (q / 2 ^ expo q)%Q).
    assert (Qabs s == Qabs q / 2 ^ expo q)%Q as Hs.
    { unfold s, Qdiv. rewrite Qabs_Qmult, Qabs_Qinv.
      by rewrite (Qabs_pos (2 ^ expo q)) by lra. }
    rewrite <- Hs in H53. apply Qabs_Qlt_condition in H53 as [Hs1 Hs2].
    assert (- 2 ^ 53 ≤ round_half_even s ≤ 2 ^ 53) as [Hm1 Hm2].
    { split; [apply rhe_lower|apply rhe_upper].
      - rewrite inject_Z_opp. lra.
      - lra. }
    unfold fl64. fold s.
    destruct (decide (Z.abs (round_half_even s) < 2 ^ 53)) as [Hlt|Hge].
    + exists (round_half_even s), (expo q). split_and!; try done; lia.
    + assert (round_half_even s = 2 ^ 53 ∨ round_half_even s = - 2 ^ 53)
        as [-> | ->] by lia.
      * exists (2 ^ 52), (expo q + 1). split_and!; try lia.
        rewrite p2_add.
        change (inject_Z (2 ^ 53)) with (inject_Z (2 ^ 52) * 2 ^ 1)%Q. ring.
      * exists (- 2 ^ 52), (expo q + 1). split_and!; try lia.
        rewrite p2_add.
        change (inject_Z (- 2 ^ 53)) with (inject_Z (- 2 ^ 52) * 2 ^ 1)%Q. ring.
  - exists 0, 0. split_and!; try lia.
    assert (q == 0)%Q as Hq0.
    { pose proof (Qabs_nonneg q). apply Qabs_Qle_condition in Hzero. lra. }
    rewrite (fl64_zero q Hq0). ring.
Qed.

(** Rounding leaves a binary64 number as it is. *)
Lemma fl64_of_f64 (q : Q) : is_f64 q → (fl64 q == q)%Q.
Proof.
  intros (m & e & Hm & [He _] & Hq).
  destruct (Qlt_le_dec 0 (Qabs q)) as [Hpos|Hzero].
  - assert (expo q ≤ e) as Hx.
    { assert (Qabs q < 2 ^ (53 + e))%Q as Hlt.
      { rewrite Hq, Qabs_Qmult, (Qabs_pos (2 ^ e)), p2_add
          by (pose proof (p2_pos e); lra).
        apply Qmult_lt_compat_r; [apply p2_pos|].
        rewrite p2_Z by lia.
        assert (Qabs (inject_Z m) == inject_Z (Z.abs m))%Q as ->
          by (unfold Qabs, inject_Z; reflexivity).
        rewrite <- Zlt_Qlt. exact Hm. }
      pose proof (expo_upper q (53 + e) Hpos Hlt). lia. }
    unfold fl64. revert Hx. generalize (expo q). intros x Hx.
    pose proof (p2_pos x) as Hp.
    assert (q / 2 ^ x == inject_Z (m * 2 ^ (e - x)))%Q as Hs.
    { rewrite inject_Z_mult, <- p2_Z, p2_sub, Hq by lia. field. lra. }
    rewrite (rhe_eq _ _ Hs).
    rewrite <- (rhe_unique (m * 2 ^ (e - x)) (inject_Z (m * 2 ^ (e - x)))).
    + rewrite <- Hs. field. lra.
    + assert (inject_Z (m * 2 ^ (e - x)) - inject_Z (m * 2 ^ (e - x)) == 0)%Q
        as -> by ring. done.
    + assert (inject_Z (m * 2 ^ (e - x)) - inject_Z (m * 2 ^ (e - x)) == 0)%Q
        as -> by ring. done.
  - assert (q == 0)%Q as Hq0.
    { pose proof (Qabs_nonneg q). apply Qabs_Qle_condition in Hzero. lra. }
    rewrite (fl64_zero q Hq0). by symmetry.
Qed.

(** ** The random module and [round] in binary64 *)

Lemma int_nonneg (x : Q) : (0 <= x)%Q → Py.int x = Qfloor x.
Proof.
  destruct x as [n d]. unfold Qle, Py.int, Qfloor. simpl. intros Hn.
  apply Z.quot_div_nonneg; lia.
Qed.

Lemma random_mono (k1 k2 : Z) : k1 ≤ k2 → (F64.random k1 <= F64.random k2)%Q.
Proof. intros H. unfold F64.random, Qle. simpl. lia. Qed.

(** [uniform(a, b)] grows with the bits that are drawn. *)
Lemma uniform_mono (a b : Q) (k1 k2 : Z) :
  (0 <= F64.sub b a)%Q → k1 ≤ k2 →
  (F64.uniform a b k1 <= F64.uniform a b k2)%Q.
Proof.
  intros Hw Hk. unfold F64.uniform, F64.add, F64.mul.
  apply fl64_mono. apply Qplus_le_r. apply fl64_mono.
  rewrite !(Qmult_comm (F64.sub b a)).
  apply Qmult_le_compat_r; [by apply random_mono | done].
Qed.

(** So its range is the range between its values at the least and the
    greatest bits. *)
Lemma uniform_between (a b lo hi : Q) (k : Z) :
  (0 <= F64.sub b a)%Q →
  (lo <= F64.uniform a b 0)%Q → (F64.uniform a b (2 ^ 53 - 1) <= hi)%Q →
  F64.bits k → between lo (F64.uniform a b k) hi.
Proof.
  intros Hw Hlo Hhi Hk. unfold F64.bits in Hk. split.
  - eapply Qle_trans; [exact Hlo|]. apply uniform_mono; [done|lia].
  - eapply Qle_trans; [|exact Hhi]. apply uniform_mono; [done|lia].
Qed.

Lemma uniform_volume k :
  F64.bits k → between 1000 (F64.uniform 1000 50000 k) 50000.
Proof. apply uniform_between; binary64. Qed.

Lemma uniform_avg_latency k :
  F64.bits k → between 50 (F64.uniform 50 150 k) 150.
Proof. apply uniform_between; binary64. Qed.

Lemma uniform_confidence k :
  F64.bits k → between 0 (F64.uniform 0 0.25 k) 0.25.
Proof. apply uniform_between; binary64. Qed.

Lemma uniform_risk k :
  F64.bits k → between 0.05 (F64.uniform (fl64 0.05) 0.25 k) 0.25.
Proof. apply uniform_between; binary64. Qed.

Lemma uniform_profit k :
  F64.bits k → between (-100) (F64.uniform (-100) 500 k) 500.
Proof. apply uniform_between; binary64. Qed.

Lemma uniform_amount k :
  F64.bits k → between 1000 (F64.uniform 1000 25000 k) 25000.
Proof. apply uniform_between; binary64. Qed.

Lemma uniform_price k :
  F64.bits k →
  between (fl64 0.001) (F64.uniform (fl64 0.001) 100000 k) 100000.
Proof. apply uniform_between; binary64. Qed.

Lemma uniform_trade_latency k :
  F64.bits k → between 45 (F64.uniform 45 200 k) 200.
Proof. apply uniform_between; binary64. Qed.

(** [round] keeps a float between two bounds when the bounds are
    decimals with that many places and their nearest binary64 numbers
    are within the bounds asked for. *)
Lemma round64_between (x lo hi : Q) (n : nat) (a b : Z) :
  (inject_Z a <= x * inject_Z (10 ^ Z.of_nat n))%Q →
  (x * inject_Z (10 ^ Z.of_nat n) <= inject_Z b)%Q →
  (lo <= fl64 (inject_Z a / inject_Z (10 ^ Z.of_nat n)))%Q →
  (fl64 (inject_Z b / inject_Z (10 ^ Z.of_nat n)) <= hi)%Q →
  between lo (F64.round x n) hi.
Proof.
  intros Ha Hb Hlo Hhi. pose proof (scale_pos n) as Hs.
  apply rhe_lower in Ha. apply rhe_upper in Hb.
  rewrite Zle_Qle in Ha, Hb. unfold F64.round. split.
  - eapply Qle_trans; [exact Hlo|]. apply fl64_mono.
    unfold Qdiv. apply Qmult_le_compat_r; [done|].
    apply Qinv_le_0_compat. lra.
  - eapply Qle_trans; [|exact Hhi]. apply fl64_mono.
    unfold Qdiv. apply Qmult_le_compat_r; [done|].
    apply Qinv_le_0_compat. lra.
Qed.

Lemma round64_rounded (x : Q) (n : nat) :
  F64.rounded (10 ^ Z.of_nat n) x (F64.round x n).
Proof.
  exists (round_half_even (x * inject_Z (10 ^ Z.of_nat n))).
  split_and!; [apply round_half_even_near|apply rhe_tie_even|reflexivity].
Qed.

(** ** One call of generate_live_data *)

Lemma slice_last_snoc {A} (n : nat) (l : list A) (x : A) :
  slice_last (S (S n)) (l ++ [x]) = slice_last (S n) l ++ [x].
Proof.
  unfold slice_last. rewrite length_app. cbn [length].
  replace (length l + 1 - S (S n))%nat with (length l - S n)%nat by lia.
  by rewrite drop_app_le by lia.
Qed.

Lemma record_trade_snoc (t : Trade.t) (h : list Trade.t) :
  record_trade t h = slice_last 99 h ++ [t].
Proof.
  unfold record_trade. case_match eqn:E.
  - apply slice_last_snoc.
  - apply Nat.ltb_ge in E. rewrite length_app in E. cbn [length] in E.
    rewrite slice_last_short; [done|lia].
Qed.

Lemma choice_lookup (seq : list string) (k : nat) :
  (k < length seq)%nat → seq !! k = Some (choice seq k).
Proof.
  intros Hk. destruct (lookup_lt_is_Some_2 _ _ Hk) as [x Hx].
  unfold choice. by rewrite nth_lookup, Hx.
Qed.

(** The gate of line 84 in terms of the bits drawn. *)
Lemma new_trade64_spec (r : F64.Rolls) :
  F64.new_trade r = true ↔ 6305039478318695 ≤ F64.k_gate r.
Proof.
  unfold F64.new_trade. rewrite gt_spec.
  assert (E : (fl64 0.7 == 6305039478318694 # 2 ^ 53)%Q) by binary64.
  rewrite E. unfold F64.random, Qlt. simpl. lia.
Qed.

(** A sum of a float far from the largest one and a small draw is a
    finite float again. *)
Lemma add_is_f64 (x v : Q) :
  (Qabs x <= 2 ^ 1000)%Q → (Qabs v <= 100000)%Q → is_f64 (F64.add x v).
Proof.
  intros Hx Hv. apply fl64_is_f64.
  eapply Qle_lt_trans; [apply Qabs_triangle|].
  eapply Qle_lt_trans; [apply Qplus_le_compat; [exact Hx | exact Hv]|].
  binary64.
Qed.

Lemma between_abs (lo hi x b : Q) :
  between lo x hi → (- b <= lo)%Q → (hi <= b)%Q → (Qabs x <= b)%Q.
Proof. intros [H1 H2] Hlo Hhi. apply Qabs_Qle_condition. split; lra. Qed.

Lemma add_between (x v lo hi lo' hi' : Q) :
  between lo v hi → (lo' <= fl64 (x + lo))%Q → (fl64 (x + hi) <= hi')%Q →
  between lo' (F64.add x v) hi'.
Proof.
  intros [H1 H2] Hlo Hhi. unfold F64.add. split.
  - eapply Qle_trans; [exact Hlo|]. apply fl64_mono. lra.
  - eapply Qle_trans; [|exact Hhi]. apply fl64_mono. lra.
Qed.

Lemma round64_amount (x : Q) :
  between 1000 x 25000 → between 1000 (F64.round x 2) 25000.
Proof.
  intros [H1 H2]. apply (round64_between x _ _ 2 100000 2500000);
    [| |binary64..];
    change (inject_Z (10 ^ Z.of_nat 2)) with 100%Q;
    [change (inject_Z 100000) with 100000%Q
    |change (inject_Z 2500000) with 2500000%Q]; lra.
Qed.

Lemma round64_price (x : Q) :
  between (fl64 0.001) x 100000 → between 0.001 (F64.round x 6) 100000.
Proof.
  intros [H1 H2].
  assert (0.001 <= fl64 0.001)%Q as H0 by binary64.
  apply (round64_between x _ _ 6 1000 100000000000);
    [| |binary64..];
    change (inject_Z (10 ^ Z.of_nat 6)) with 1000000%Q;
    [change (inject_Z 1000) with 1000%Q
    |change (inject_Z 100000000000) with 100000000000%Q]; lra.
Qed.

Lemma round64_latency (x : Q) :
  between 45 x 200 → between 45 (F64.round x 1) 200.
Proof.
  intros [H1 H2]. apply (round64_between x _ _ 1 450 2000);
    [| |binary64..];
    change (inject_Z (10 ^ Z.of_nat 1)) with 10%Q;
    [change (inject_Z 450) with 450%Q
    |change (inject_Z 2000) with 2000%Q]; lra.
Qed.

(** C1, as the claim words it, fails on two ticks from the initial
    state.  The sums of lines 76 and 81 are binary64 sums: with 17 for
    the bits of the first volume draw and the least draw (1000.0) in the
    second tick, [total_volume] grows by [1000 - 2^-43], below every
    value of [uniform(1000, 50000)]; with bits 2 and then 0 for the
    profit draws, [profits_usd] changes by [-100 - 2^-46].  The amount
    that line 91 stores is the binary64 number nearest to a decimal with
    two places and is no such decimal itself.  And the test of line 84
    is passed by [2702159776422297] of the [2^53] values of [random()],
    which is less than three in ten. *)
Lemma generate_live_data_rounds :
  let s1 := F64.generate_live_data (F64.sample_rolls 17 2 0) init in
  let s2 :=
    F64.generate_live_data (F64.sample_rolls 0 0 (2 ^ 53 - 1)) s1 in
  F64.rolls_ok init (F64.sample_rolls 17 2 0) ∧
  F64.rolls_ok s1 (F64.sample_rolls 0 0 (2 ^ 53 - 1)) ∧
  (total_volume (metrics s2) - total_volume (metrics s1)
   == 1000 - (1 # 2 ^ 43))%Q ∧
  ¬ between 1000
      (total_volume (metrics s2) - total_volume (metrics s1)) 50000 ∧
  (profits_usd (metrics s2) - profits_usd (metrics s1)
   == -100 - (1 # 2 ^ 46))%Q ∧
  ¬ between (-100)
      (profits_usd (metrics s2) - profits_usd (metrics s1)) 500 ∧
  (∃ e : Trade.t,
     live_trades s2 = [e] ∧
     (Trade.amount_usd e == 848160520887337 # 2 ^ 36)%Q ∧
     ∀ k : Z, ¬ (Trade.amount_usd e * 100 == inject_Z k)%Q) ∧
  (∀ gate : Z,
     F64.new_trade (F64.sample_rolls 0 0 gate) = true ↔
     2 ^ 53 - 2702159776422297 ≤ gate) ∧
  (2702159776422297 # 2 ^ 53 < 0.3)%Q.
Proof.
  intros s1 s2.
  assert (total_volume (metrics s2) - total_volume (metrics s1)
          == 1000 - (1 # 2 ^ 43))%Q as Ev by binary64.
  assert (profits_usd (metrics s2) - profits_usd (metrics s1)
          == -100 - (1 # 2 ^ 46))%Q as Ep by binary64.
  split_and!.
  - repeat constructor; binary64.
  - repeat constructor; binary64.
  - exact Ev.
  - intros [H _]. apply H. binary64.
  - exact Ep.
  - intros [H _]. apply H. binary64.
  - eexists. split_and!; [reflexivity|binary64|].
    intros k Hk.
    assert ((848160520887337 # 2 ^ 36) * 100 == inject_Z k)%Q as E.
    { eapply Qeq_trans; [|exact Hk].
      apply Qmult_comp; [|reflexivity]. symmetry. binary64. }
    unfold Qeq, Qmult, inject_Z in E. simpl in E. lia.
  - intros gate. apply new_trade64_spec.
  - binary64.
Qed.

(** C1 (amended). One call of generate_live_data follows the fixed
    policy in binary64 arithmetic and touches nothing else.  With the
    results of the generator as inputs ([j] for an integer drawn below a
    bound, [k] for the 53 bits of [random()], [U a b k] for
    [uniform(a, b)] written out), from a state whose [total_volume] and
    [profits_usd] are far from the largest float:
    [orders_executed] grows by [randint(1, 5)], which is [1 + j] within
    1..5; [total_volume] becomes the binary64 sum of its old value and
    [uniform(1000, 50000)], a float within these bounds;
    [avg_latency_us] is replaced by [uniform(50, 150)]; [ai_confidence]
    is the binary64 sum of 0.75 and [uniform(0, 0.25)] and lies in
    [0.75, 1]; [risk_score] is [uniform(0.05, 0.25)];
    [memecoin_scanned] grows by [randint(0, 3)]; [profits_usd] becomes
    the binary64 sum of its old value and [uniform(-100, 500)];
    [success_rate], [active_strategies], the subscribers, the running
    flag and the tokens stay.  A trade is recorded exactly when the bits
    of line 84 are at least 6305039478318695, which
    [2^53 - 6305039478318695] of the [2^53] values are, a fraction of
    [3/10 - 6/(10 * 2^53)]; without it the history stays.  With it the
    history ends in exactly one new trade [e] after the last (at most
    99) trades it had: its id is T and the truncated binary64 product of
    the clock and 1000, its timestamp the clock's text, its token, side,
    source and exchange the elements drawn from the token list and the
    three fixed lists, its status EXECUTED, and its amount, price and
    latency the draws from [1000, 25000], [0.001, 100000] and
    [45, 200], each rounded as [round] does to 2, 6 and 1 places: the
    binary64 number nearest to the nearest decimal, ties to even, and
    still within the bounds. *)
Theorem generate_live_data_policy (r : F64.Rolls) (self : Dashboard) :
  F64.rolls_ok self r →
  (Qabs (total_volume (metrics self)) <= 2 ^ 1000)%Q →
  (Qabs (profits_usd (metrics self)) <= 2 ^ 1000)%Q →
  let self' := F64.generate_live_data r self in
  let m := metrics self in
  let m' := metrics self' in
  let t := F64.trade_rolls r in
  let U (a b : Q) (k : Z) : Q :=
    fl64 (a + fl64 (fl64 (b - a) * (k # 2 ^ 53))) in
  let rounded (p : Z) (x y : Q) : Prop :=
    ∃ k : Z,
      (Qabs (inject_Z k - x * inject_Z p) <= 1 # 2)%Q ∧
      ((Qabs (inject_Z k - x * inject_Z p) == 1 # 2)%Q → Z.even k = true) ∧
      y = fl64 (inject_Z k / inject_Z p) in
  let v_volume := U 1000%Q 50000%Q (F64.k_volume r) in
  let v_confidence := U 0%Q 0.25%Q (F64.k_confidence r) in
  let v_profit := U (-100)%Q 500%Q (F64.k_profit r) in
  let x_amount := U 1000%Q 25000%Q (F64.k_amount t) in
  let x_price := U (fl64 0.001) 100000%Q (F64.k_price t) in
  let x_latency := U 45%Q 200%Q (F64.k_latency t) in
  (orders_executed m' = orders_executed m + (1 + F64.j_orders r) ∧
   1 ≤ 1 + F64.j_orders r ≤ 5) ∧
  (total_volume m' = fl64 (total_volume m + v_volume) ∧
   between 1000 v_volume 50000 ∧ is_f64 (total_volume m')) ∧
  (avg_latency_us m' = U 50%Q 150%Q (F64.k_avg_latency r) ∧
   between 50 (avg_latency_us m') 150) ∧
  (ai_confidence m' = fl64 (0.75 + v_confidence)%Q ∧
   between 0 v_confidence 0.25 ∧ between 0.75 (ai_confidence m') 1) ∧
  (risk_score m' = U (fl64 0.05) 0.25%Q (F64.k_risk r) ∧
   between 0.05 (risk_score m') 0.25) ∧
  (memecoin_scanned m' = memecoin_scanned m + (0 + F64.j_memecoin r) ∧
   0 ≤ 0 + F64.j_memecoin r ≤ 3) ∧
  (profits_usd m' = fl64 (profits_usd m + v_profit) ∧
   between (-100) v_profit 500 ∧ is_f64 (profits_usd m')) ∧
  success_rate m' = success_rate m ∧
  active_strategies m' = active_strategies m ∧
  clients self' = clients self ∧
  running self' = running self ∧
  tokens self' = tokens self ∧
  (F64.new_trade r = true ↔ 6305039478318695 ≤ F64.k_gate r) ∧
  ((2 ^ 53 - 6305039478318695) # 2 ^ 53 == 0.3 - (6 # 10 * 2 ^ 53))%Q ∧
  (F64.new_trade r = false → live_trades self' = live_trades self) ∧
  (F64.new_trade r = true →
   ∃ (e : Trade.t) (kept : list Trade.t),
     live_trades self' = kept ++ [e] ∧
     kept `suffix_of` live_trades self ∧
     length kept = (99 `min` length (live_trades self))%nat ∧
     Trade.id e = "T" +:+ pretty (Qfloor (fl64 (F64.t_time t * 1000))) ∧
     Trade.timestamp e = F64.t_now t ∧
     tokens self !! F64.j_token t = Some (Trade.token e) ∧
     ["BUY"; "SELL"]%string !! F64.j_side t = Some (Trade.side e) ∧
     (rounded 100 x_amount (Trade.amount_usd e) ∧
      between 1000 x_amount 25000 ∧
      between 1000 (Trade.amount_usd e) 25000) ∧
     (rounded 1000000 x_price (Trade.price e) ∧
      between (fl64 0.001) x_price 100000 ∧
      between 0.001 (Trade.price e) 100000) ∧
     (rounded 10 x_latency (Trade.latency_us e) ∧
      between 45 x_latency 200 ∧
      between 45 (Trade.latency_us e) 200) ∧
     Trade.status e = "EXECUTED"%string ∧
     ["AI_SIGNAL"; "ARBITRAGE"; "MOMENTUM"; "SENTIMENT"]%string
       !! F64.j_source t = Some (Trade.source e) ∧
     ["RAYDIUM"; "ORCA"; "JUPITER"; "UNISWAP"]%string
       !! F64.j_exchange t = Some (Trade.exchange e)).
Proof.
  intros [Ho Hv Hl Hc Hr Hm Hp Hg [Htok Hside Ha Hpr Hla Htime Hsrc Hex]]
    Hvol Hprof self' m m' t U rounded.
  intros v_volume v_confidence v_profit x_amount x_price x_latency.
  pose proof (uniform_volume _ Hv) as Bv.
  pose proof (uniform_confidence _ Hc) as Bc.
  pose proof (uniform_profit _ Hp) as Bp.
  pose proof (uniform_amount _ Ha) as Ba.
  pose proof (uniform_price _ Hpr) as Bpr.
  pose proof (uniform_trade_latency _ Hla) as Bla.
  split_and!; try reflexivity; try lia.
  - exact Bv.
  - apply add_is_f64; [done|]. eapply between_abs; [exact Bv|binary64..].
  - by apply uniform_avg_latency.
  - exact Bc.
  - eapply add_between; [exact Bc|binary64..].
  - by apply uniform_risk.
  - exact Bp.
  - apply add_is_f64; [done|]. eapply between_abs; [exact Bp|binary64..].
  - apply new_trade64_spec.
  - intros Hn. unfold self', F64.generate_live_data. cbn [live_trades].
    by rewrite Hn.
  - intros Hn.
    exists (F64.make_trade self t), (slice_last 99 (live_trades self)).
    split_and!; try reflexivity.
    + unfold self', F64.generate_live_data. cbn [live_trades].
      rewrite Hn. apply record_trade_snoc.
    + apply slice_last_suffix.
    + apply slice_last_length. lia.
    + cbn [F64.make_trade Trade.id]. rewrite int_nonneg; [done|].
      apply fl64_nonneg. apply Qmult_le_0_compat; [done|lra].
    + by apply choice_lookup.
    + by apply choice_lookup.
    + apply (round64_rounded _ 2).
    + exact Ba.
    + by apply round64_amount.
    + apply (round64_rounded _ 6).
    + exact Bpr.
    + by apply round64_price.
    + apply (round64_rounded _ 1).
    + exact Bla.
    + by apply round64_latency.
    + by apply choice_lookup.
    + by apply choice_lookup.
Qed.

Lemma generate_live_data_policy_witness :
  let r := F64.sample_rolls 17 2 (2 ^ 53 - 1) in
  let self' := F64.generate_live_data r init in
  F64.rolls_ok init r ∧
  orders_executed (metrics self') = 3 ∧
  F64.is_f64 (total_volume (metrics self')) ∧
  between 0.75 (ai_confidence (metrics self')) 1 ∧
  ∃ e : Trade.t,
    live_trades self' = [e] ∧
    Trade.token e = "PEPE"%string ∧
    between 1000 (Trade.amount_usd e) 25000.
Proof.
  intros r self'.
  assert (F64.rolls_ok init r) as Hok by (repeat constructor; binary64).
  assert (Qabs (total_volume (metrics init)) <= 2 ^ 1000)%Q as Hvol
    by binary64.
  assert (Qabs (profits_usd (metrics init)) <= 2 ^ 1000)%Q as Hprof
    by binary64.
  assert (F64.new_trade r = true) as Hgate by binary64.
  destruct (generate_live_data_policy r init Hok Hvol Hprof) as
    ((Ho & _) & (_ & _ & Hv) & _ & (_ & _ & Hc) & _ & _ & _ & _ & _ & _ & _
     & _ & _ & _ & _ & Ht).
  destruct (Ht Hgate) as
    (e & kept & Hl & _ & Hk & _ & _ & Htok & _ & (_ & _ & Ha) & _).
  apply nil_length_inv in Hk. subst kept.
  split_and!; [exact Hok|exact Ho|exact Hv|exact Hc|].
  exists e. split_and!; [exact Hl| |exact Ha].
  by injection Htok.
Defined.

(** ** Runs of the dashboard *)

Lemma run_cons (self : Dashboard) (i : input) (rest : list input) :
  run self (i :: rest)
  = ((run (step self i).1 rest).1,
     sends (step self i).2 ++ (run (step self i).1 rest).2).
Proof.
  simpl. destruct (step self i) as [self' eff]. cbn [fst snd].
  by destruct (run self' rest).
Qed.

Lemma draws_ok_tokens (s1 s2 : Dashboard) (d : Draws) :
  tokens s1 = tokens s2 → draws_ok s1 d → draws_ok s2 d.
Proof.
  intros Heq [? ? ? ? ? ? ? ? [Htok ? ? ? ? ? ?]].
  rewrite Heq in Htok. constructor; done.
Qed.

Lemma tick_state (env : Env) (self : Dashboard) :
  (tick env self).1
  = if truthy (clients self)
    then generate_live_data (env_draws env) self else self.
Proof.
  unfold tick. destruct (truthy (clients self)) eqn:E; [|done].
  cbn [generate_live_data clients]. rewrite E. reflexivity.
Qed.

(** What a step does to the state, by cases. *)
Lemma step_state (self : Dashboard) (i : input) :
  (step self i).1 = self ∨
  (∃ cs, (step self i).1 = set_clients cs self) ∨
  (∃ env, i = Tick env ∧
          (step self i).1 = generate_live_data (env_draws env) self).
Proof.
  destruct i as [w|w|env]; simpl.
  - right; left. by eexists.
  - unfold leave. case_bool_decide; simpl; [right; left; by eexists | by left].
  - destruct (running self); [|by left].
    rewrite tick_state. destruct (truthy (clients self)); [|by left].
    right; right. by eexists.
Qed.

Lemma step_tokens (self : Dashboard) (i : input) :
  tokens (step self i).1 = tokens self.
Proof.
  destruct (step_state self i) as [->|[[cs ->]|(env & _ & ->)]]; done.
Qed.

Lemma input_ok_step (self : Dashboard) (i j : input) :
  input_ok self j → input_ok (step self i).1 j.
Proof.
  destruct j as [| |env]; simpl; try done.
  apply draws_ok_tokens. by rewrite step_tokens.
Qed.

(** One step never lowers the three counters. *)
Lemma step_monotone (self : Dashboard) (i : input) :
  input_ok self i →
  orders_executed (metrics self) ≤ orders_executed (metrics (step self i).1) ∧
  (total_volume (metrics self) <= total_volume (metrics (step self i).1))%Q ∧
  memecoin_scanned (metrics self)
  ≤ memecoin_scanned (metrics (step self i).1).
Proof.
  intros Hok.
  destruct (step_state self i) as [->|[[cs ->]|(env & -> & ->)]].
  - split_and!; try lia. lra.
  - simpl. split_and!; try lia. lra.
  - destruct Hok as [Ho [Hv _] _ _ _ Hm _ _ _]. simpl.
    split_and!; try lia. lra.
Qed.

(** C6. Along every sequence of connections, disconnections and ticks
    whose draws are in range, orders_executed, total_volume and
    memecoin_scanned never decrease: their values after the sequence are
    at least their values before it (one tick is the sequence of length
    one, a run from the initial state is the case [self = init]). *)
Theorem counters_non_decreasing (self : Dashboard) (inputs : list input) :
  Forall (input_ok self) inputs →
  let self' := (run self inputs).1 in
  orders_executed (metrics self) ≤ orders_executed (metrics self') ∧
  (total_volume (metrics self) <= total_volume (metrics self'))%Q ∧
  memecoin_scanned (metrics self) ≤ memecoin_scanned (metrics self').
Proof.
  revert self. induction inputs as [|i rest IH]; intros self Hok; cbn zeta.
  - simpl. split_and!; try lia. lra.
  - apply Forall_cons in Hok as [Hi Hrest].
    rewrite run_cons. cbn [fst].
    destruct (step_monotone self i Hi) as (Ho & Hv & Hm).
    destruct (IH (step self i).1) as (Ho' & Hv' & Hm').
    { eapply Forall_impl; [exact Hrest|]. intros j. apply input_ok_step. }
    split_and!; try lia. lra.
Qed.

Lemma counters_non_decreasing_witness :
  let inputs := [Connect 1%nat; Tick (sample_env 0.9 []);
                 Tick (sample_env 0.2 [1%nat])] in
  let self' := (run init inputs).1 in
  orders_executed (metrics init) ≤ orders_executed (metrics self') ∧
  (total_volume (metrics init) <= total_volume (metrics self'))%Q ∧
  memecoin_scanned (metrics init) ≤ memecoin_scanned (metrics self').
Proof.
  apply (counters_non_decreasing init).
  repeat apply Forall_cons_2; try apply Forall_nil_2; try exact I;
    (split; [numbers..|]; split; numbers).
Defined.

Lemma step_in_ranges (self : Dashboard) (i : input) :
  input_ok self i → in_ranges self → in_ranges (step self i).1.
Proof.
  intros Hok Hin.
  destruct (step_state self i) as [->|[[cs ->]|(env & -> & ->)]]; try done.
  destruct Hok as [_ _ _ [Hc0 Hc1] [Hr0 Hr1] _ _ _ _].
  unfold in_ranges, between. simpl. split_and!; lra.
Qed.

Lemma run_in_ranges (self : Dashboard) (inputs : list input) :
  Forall (input_ok self) inputs → in_ranges self →
  in_ranges (run self inputs).1.
Proof.
  revert self. induction inputs as [|i rest IH]; intros self Hok Hin; [done|].
  apply Forall_cons in Hok as [Hi Hrest].
  rewrite run_cons. cbn [fst]. apply IH.
  - eapply Forall_impl; [exact Hrest|]. intros j. apply input_ok_step.
  - by apply step_in_ranges.
Qed.

(** C7. After every sequence of inputs from the initial state, whether
    its ticks regenerate the metrics or not, ai_confidence is in
    [0.75, 1.0] and risk_score in [0.05, 0.25], provided the draws are in
    their ranges. *)
Theorem confidence_and_risk_in_range (inputs : list input) :
  Forall (input_ok init) inputs →
  let self := (run init inputs).1 in
  between 0.75 (ai_confidence (metrics self)) 1.0 ∧
  between 0.05 (risk_score (metrics self)) 0.25.
Proof.
  intros Hok. apply (run_in_ranges init inputs Hok).
  split; split; simpl; lra.
Qed.

Lemma confidence_and_risk_in_range_witness :
  let inputs := [Tick (sample_env 0.9 []); Connect 4%nat;
                 Tick (sample_env 0.9 [])] in
  let self := (run init inputs).1 in
  between 0.75 (ai_confidence (metrics self)) 1.0 ∧
  between 0.05 (risk_score (metrics self)) 0.25.
Proof.
  apply confidence_and_risk_in_range.
  repeat apply Forall_cons_2; try apply Forall_nil_2; try exact I;
    (split; [numbers..|]; split; numbers).
Defined.

(** The capacity bound holds in every reachable state as well. *)
Lemma run_history_bounded (self : Dashboard) (inputs : list input) :
  (length (live_trades self) ≤ 100)%nat →
  (length (live_trades (run self inputs).1) ≤ 100)%nat.
Proof.
  revert self. induction inputs as [|i rest IH]; intros self Hlen; [done|].
  rewrite run_cons. cbn [fst]. apply IH.
  destruct (step_state self i) as [->|[[cs ->]|(env & -> & ->)]]; try done.
  simpl. case_match; [apply record_trade_length | done].
Qed.

(** ** The broadcast (lines 46-69) *)

Lemma truthy_spec (cs : gset nat) : truthy cs = true ↔ cs ≠ ∅.
Proof. unfold truthy. by rewrite bool_decide_eq_true. Qed.

Lemma generate_live_data_clients (d : Draws) (self : Dashboard) :
  clients (generate_live_data d self) = clients self.
Proof. reflexivity. Qed.

Lemma tick_clients (env : Env) (self : Dashboard) :
  clients (tick env self).1 = clients self.
Proof. rewrite tick_state. by destruct (truthy (clients self)). Qed.

Lemma tick_effects (env : Env) (self : Dashboard) :
  clients self ≠ ∅ →
  (tick env self).2
  = let data :=
      make_data (env_now env) (generate_live_data (env_draws env) self) in
    {| dumps_calls := length (elements (clients self));
       sends := (λ c, (c, data, env_send env c data))
                  <$> elements (clients self);
       escaped := None |}.
Proof.
  intros Hne. apply truthy_spec in Hne. unfold tick. rewrite Hne.
  rewrite generate_live_data_clients, Hne. reflexivity.
Qed.

Lemma tick_effects_empty (env : Env) (self : Dashboard) :
  clients self = ∅ → tick env self = (self, no_effects).
Proof.
  intros Hemp. unfold tick.
  assert (truthy (clients self) = false) as ->; [|done].
  apply not_true_is_false. rewrite truthy_spec. by intros [].
Qed.

(** Whoever is sent something by a tick is a client at that time. *)
Lemma tick_sends_clients (env : Env) (self : Dashboard) c data r :
  (c, data, r) ∈ sends (tick env self).2 → c ∈ clients self.
Proof.
  destruct (decide (clients self = ∅)) as [Hemp|Hne].
  - rewrite tick_effects_empty by done. simpl. by intros ?%elem_of_nil.
  - rewrite tick_effects by done. simpl.
    intros (c' & [= -> _ _] & Hin)%list_elem_of_fmap.
    by apply elem_of_elements.
Qed.

(** Every client is sent the message of the tick, with the outcome that
    its own channel gives. *)
Lemma tick_attempts (env : Env) (self : Dashboard) (c : websocket) :
  c ∈ clients self →
  let data :=
    make_data (env_now env) (generate_live_data (env_draws env) self) in
  (c, data, env_send env c data) ∈ sends (tick env self).2.
Proof.
  intros Hc. cbn zeta. rewrite tick_effects by set_solver. cbn zeta.
  cbn [sends]. apply list_elem_of_fmap. exists c. split; [done|].
  by apply elem_of_elements.
Qed.

(** Without the flag, [gather] would raise the first failure. *)
Lemma gather_without_flag_raises :
  gather false [Ok (); Raise ConnectionClosed; Ok ()] = Raise ConnectionClosed.
Proof. reflexivity. Qed.

(** C8. A tick with no client connected does nothing: the state, hence
    the metrics and the history, is returned as it was, nothing is
    serialised and nothing is sent. *)
Theorem tick_without_clients_is_noop (env : Env) (self : Dashboard) :
  clients self = ∅ →
  let '(self', eff) := tick env self in
  self' = self ∧
  metrics self' = metrics self ∧
  live_trades self' = live_trades self ∧
  dumps_calls eff = 0%nat ∧
  sends eff = [] ∧
  escaped eff = None.
Proof.
  intros Hemp. by rewrite tick_effects_empty.
Qed.

Lemma tick_without_clients_is_noop_witness :
  let '(self', eff) := tick (sample_env 0.9 []) init in
  self' = init ∧
  metrics self' = metrics init ∧
  live_trades self' = live_trades init ∧
  dumps_calls eff = 0%nat ∧
  sends eff = [] ∧
  escaped eff = None.
Proof.
  apply (tick_without_clients_is_noop (sample_env 0.9 []) init).
  reflexivity.
Defined.

(** C4. In a tick with clients, a send is attempted to every client
    exactly once, whatever the outcome of the other sends: each client
    whose send does not fail is sent this tick's message, and nothing is
    raised to the caller of the tick. *)
Theorem delivery_failures_are_isolated (env : Env) (self : Dashboard) :
  clients self ≠ ∅ →
  let eff := (tick env self).2 in
  let data :=
    make_data (env_now env) (generate_live_data (env_draws env) self) in
  escaped eff = None ∧
  (sends eff).*1.*1 ≡ₚ elements (clients self) ∧
  (∀ c, c ∈ clients self → (c, data, env_send env c data) ∈ sends eff) ∧
  (∀ c, c ∈ clients self → env_send env c data = Ok () →
        (c, data, Ok ()) ∈ sends eff).
Proof.
  intros Hne. cbn zeta. split_and!.
  - by rewrite tick_effects.
  - rewrite tick_effects by done. cbn zeta. cbn [sends].
    rewrite <- !list_fmap_compose.
    erewrite (list_fmap_ext _ id); [by rewrite list_fmap_id|]. done.
  - intros c Hc. by apply tick_attempts.
  - intros c Hc Hok. pose proof (tick_attempts env self c Hc) as Hsent.
    cbn zeta in Hsent. by rewrite Hok in Hsent.
Qed.

Lemma delivery_failures_are_isolated_witness :
  let env := sample_env 0.9 [2%nat] in
  let self := join 1%nat (join 2%nat init) in
  let eff := (tick env self).2 in
  let data :=
    make_data (env_now env) (generate_live_data (env_draws env) self) in
  escaped eff = None ∧
  (sends eff).*1.*1 ≡ₚ elements (clients self) ∧
  (∀ c, c ∈ clients self → (c, data, env_send env c data) ∈ sends eff) ∧
  (∀ c, c ∈ clients self → env_send env c data = Ok () →
        (c, data, Ok ()) ∈ sends eff).
Proof.
  apply (delivery_failures_are_isolated
           (sample_env 0.9 [2%nat]) (join 1%nat (join 2%nat init))).
  simpl. set_solver.
Defined.

Lemma slice_last_split {A} (n : nat) (l : list A) :
  l = take (length l - S n) l ++ slice_last (S n) l.
Proof. unfold slice_last. by rewrite take_drop. Qed.

(** C5. Every message that a tick sends is an update.  It has exactly
    the five keys type, timestamp, metrics, live_trades and
    system_status.  Its type is update and its timestamp the time of its
    generation.  Its metrics have exactly the nine fields, each with the
    value that the metric has after the update of this tick.  Its
    live_trades are the last ten trades of the history after this tick
    (all of them when there are fewer), oldest first and the most recent
    last, so ten at most, each with its ten fields.  Its system_status
    is the fixed table of five components. *)
Theorem message_shape (env : Env) (self : Dashboard)
    (c : websocket) (msg : json) (r : result unit) :
  (c, msg, r) ∈ sends (tick env self).2 →
  let self' := (tick env self).1 in
  let m := metrics self' in
  keys msg = ["type"; "timestamp"; "metrics"; "live_trades";
              "system_status"]%string ∧
  get "type" msg = Some (JStr "update") ∧
  get "timestamp" msg = Some (JStr (env_now env)) ∧
  (∃ ms : json,
     get "metrics" msg = Some ms ∧
     keys ms = ["orders_executed"; "total_volume"; "avg_latency_us";
                "success_rate"; "active_strategies"; "ai_confidence";
                "risk_score"; "memecoin_scanned"; "profits_usd"]%string ∧
     get "orders_executed" ms = Some (JInt (orders_executed m)) ∧
     get "total_volume" ms = Some (JFloat (total_volume m)) ∧
     get "avg_latency_us" ms = Some (JFloat (avg_latency_us m)) ∧
     get "success_rate" ms = Some (JFloat (success_rate m)) ∧
     get "active_strategies" ms = Some (JInt (active_strategies m)) ∧
     get "ai_confidence" ms = Some (JFloat (ai_confidence m)) ∧
     get "risk_score" ms = Some (JFloat (risk_score m)) ∧
     get "memecoin_scanned" ms = Some (JInt (memecoin_scanned m)) ∧
     get "profits_usd" ms = Some (JFloat (profits_usd m))) ∧
  (∃ (items : list json) (older recent : list Trade.t),
     get "live_trades" msg = Some (JArr items) ∧
     live_trades self' = older ++ recent ∧
     length recent = (10 `min` length (live_trades self'))%nat ∧
     (length items ≤ 10)%nat ∧
     Forall2
       (λ (item : json) (t : Trade.t),
          keys item = ["id"; "timestamp"; "token"; "side"; "amount_usd";
                       "price"; "latency_us"; "status"; "source";
                       "exchange"]%string ∧
          get "id" item = Some (JStr (Trade.id t)) ∧
          get "timestamp" item = Some (JStr (Trade.timestamp t)) ∧
          get "token" item = Some (JStr (Trade.token t)) ∧
          get "side" item = Some (JStr (Trade.side t)) ∧
          get "amount_usd" item = Some (JFloat (Trade.amount_usd t)) ∧
          get "price" item = Some (JFloat (Trade.price t)) ∧
          get "latency_us" item = Some (JFloat (Trade.latency_us t)) ∧
          get "status" item = Some (JStr (Trade.status t)) ∧
          get "source" item = Some (JStr (Trade.source t)) ∧
          get "exchange" item = Some (JStr (Trade.exchange t)))
       items recent) ∧
  (∃ st : json,
     get "system_status" msg = Some st ∧
     keys st = ["core_engine"; "ai_system"; "execution_engine";
                "risk_manager"; "network"]%string ∧
     get "core_engine" st = Some (JStr "ONLINE") ∧
     get "ai_system" st = Some (JStr "PROCESSING") ∧
     get "execution_engine" st = Some (JStr "ULTRA_FAST") ∧
     get "risk_manager" st = Some (JStr "PROTECTED") ∧
     get "network" st = Some (JStr "OPTIMAL")).
Proof.
  intros Hin. cbn zeta.
  assert (clients self ≠ ∅) as Hne.
  { apply tick_sends_clients in Hin. set_solver. }
  rewrite tick_effects in Hin by done. cbn zeta in Hin. cbn [sends] in Hin.
  apply list_elem_of_fmap in Hin as (c' & [= _ -> _] & _).
  rewrite tick_state. apply truthy_spec in Hne. rewrite Hne.
  set (self' := generate_live_data (env_draws env) self).
  split_and!; try reflexivity.
  - eexists. split_and!; reflexivity.
  - exists (trade_dict <$> slice_last 10 (live_trades self')),
      (take (length (live_trades self') - 10) (live_trades self')),
      (slice_last 10 (live_trades self')).
    split_and!.
    + reflexivity.
    + apply slice_last_split.
    + apply slice_last_length. lia.
    + rewrite length_fmap, slice_last_length by lia. lia.
    + apply Forall2_fmap_l, Forall_Forall2_diag, Forall_true.
      intros t. split_and!; reflexivity.
  - eexists. split_and!; reflexivity.
Qed.

Lemma message_shape_witness :
  let self :=
    (run (join 1%nat init) (Tick ∘ numbered_env <$> seq 0 13)).1 in
  let env := numbered_env 13 in
  let msg := make_data (env_now env) (tick env self).1 in
  length (live_trades (tick env self).1) = 14%nat ∧
  ∃ (items : list json) (item : json),
    get "live_trades" msg = Some (JArr items) ∧
    length items = 10%nat ∧
    items !! 0%nat = Some item ∧
    get "id" item = Some (JStr "T4000") ∧
    get "token" item = Some (JStr "SHIB").
Proof.
  intros self env msg.
  assert (length (live_trades (tick env self).1) = 14%nat) as Hlen
    by (vm_compute; reflexivity).
  assert ((1%nat, msg, Ok ()) ∈ sends (tick env self).2) as Hin.
  { apply (tick_attempts env self 1%nat). vm_compute. reflexivity. }
  destruct (message_shape env self 1%nat msg (Ok ()) Hin)
    as (_ & _ & _ & _ & (items & older & recent & Hget & Hsplit & Hrecent
                        & _ & Hitems) & _).
  rewrite Hlen in Hrecent. change (10 `min` 14)%nat with 10%nat in Hrecent.
  assert (length older = 4%nat) as Holder.
  { apply (f_equal length) in Hsplit. rewrite length_app, Hlen in Hsplit.
    lia. }
  assert (∃ t, recent !! 0%nat = Some t ∧ Trade.id t = "T4000"%string
               ∧ Trade.token t = "SHIB"%string) as (t & Ht & Hid & Htok).
  { assert (live_trades (tick env self).1 !! 4%nat
            = Some (make_trade self
                      (r_trade (env_draws (numbered_env 4))))) as H4
      by (vm_compute; reflexivity).
    rewrite Hsplit, lookup_app_r in H4 by lia.
    rewrite Holder in H4. eexists. split; [exact H4|].
    split; vm_compute; reflexivity. }
  destruct (Forall2_lookup_r _ _ _ _ _ Hitems Ht)
    as (item & Hitem & _ & Hi & _ & Hk & _).
  split; [exact Hlen|]. exists items, item. split_and!.
  - exact Hget.
  - apply Forall2_length in Hitems. lia.
  - exact Hitem.
  - by rewrite Hi, Hid.
  - by rewrite Hk, Htok.
Defined.

(** ** Joining and leaving (lines 35-42) *)




Lemma leave_present (w : websocket) (self : Dashboard) :
  w ∈ clients self →
  leave w self = (Ok (), set_clients (clients self ∖ {[w]}) self).
Proof. intros Hin. unfold leave. by rewrite bool_decide_eq_true_2. Qed.

Lemma leave_absent (w : websocket) (self : Dashboard) :
  w ∉ clients self → leave w self = (Raise KeyError, self).
Proof. intros Hin. unfold leave. by rewrite bool_decide_eq_false_2. Qed.

(** A subscribed handle stays subscribed until it is disconnected. *)
Lemma run_keeps_present (self : Dashboard) (inputs : list input)
    (w : websocket) :
  w ∈ clients self → Disconnect w ∉ inputs → w ∈ clients (run self inputs).1.
Proof.
  revert self. induction inputs as [|i rest IH]; intros self Hw Hno; [done|].
  apply not_elem_of_cons in Hno as [Hi Hrest].
  rewrite run_cons. cbn [fst]. apply IH; [|done].
  destruct i as [w'|w'|env]; simpl.
  - set_solver.
  - assert (w' ≠ w) by congruence.
    unfold leave. case_bool_decide; simpl; set_solver.
  - destruct (running self); [|done]. by rewrite tick_clients.
Qed.

(** Within the handler the removal finds its connection: a handler whose
    connection nobody else removes ends without an error and leaves the
    set without its connection. *)
Lemma register_client_ok (w : websocket) (during : list input)
    (self : Dashboard) :
  Disconnect w ∉ during →
  (register_client w during self).1 = Ok () ∧
  w ∉ clients (register_client w during self).2.
Proof.
  intros Hno. unfold register_client.
  rewrite leave_present.
  - simpl. split; [done|]. set_solver.
  - apply run_keeps_present; [|done]. simpl. set_solver.
Qed.

(** The loop of [broadcast_data] is the run of its ticks. *)
Lemma broadcast_data_run (envs : list Env) (self : Dashboard) :
  (broadcast_data envs self).1 = (run self (Tick <$> envs)).1.
Proof.
  revert self. induction envs as [|env rest IH]; intros self; [done|].
  rewrite fmap_cons, run_cons. cbn [fst]. simpl.
  destruct (running self) eqn:Hrun.
  - destruct (tick env self) as [self' eff] eqn:E. cbn [fst].
    rewrite <- IH. by destruct (broadcast_data rest self').
  - cbn [fst]. rewrite <- IH. destruct rest; simpl; by rewrite ?Hrun.
Qed.










(** C9, as stated, fails: leaving with a handle that is not subscribed,
    or leaving twice, raises KeyError. *)
Lemma leave_unknown_raises :
  (leave 5%nat init).1 = Raise KeyError ∧
  (leave 5%nat (leave 5%nat (join 5%nat init)).2).1 = Raise KeyError.
Proof.
  split.
  - rewrite leave_absent; [done | simpl; set_solver].
  - rewrite (leave_present 5%nat (join 5%nat init)) by (simpl; set_solver).
    cbn [snd].
    rewrite leave_absent; [done | simpl; set_solver].
Qed.

(** C9, amended. Leaving with a handle that is not subscribed changes
    nothing but raises KeyError; leaving with a subscribed handle removes
    it without an error, and a second leave then raises KeyError and
    changes nothing. *)
Theorem leave_twice_raises (w : websocket) (self : Dashboard) :
  (w ∉ clients self → leave w self = (Raise KeyError, self)) ∧
  (w ∈ clients self →
   ∃ self', leave w self = (Ok (), self') ∧
            clients self' = clients self ∖ {[w]} ∧
            leave w self' = (Raise KeyError, self')).
Proof.
  split; [apply leave_absent|].
  intros Hin. eexists. split_and!; [by apply leave_present|done|].
  apply leave_absent. simpl. set_solver.
Qed.

Lemma leave_twice_raises_witness :
  leave 5%nat init = (Raise KeyError, init) ∧
  ∃ self', leave 5%nat (join 5%nat init) = (Ok (), self') ∧
           clients self' = clients (join 5%nat init) ∖ {[5%nat]} ∧
           leave 5%nat self' = (Raise KeyError, self').
Proof.
  split.
  - apply (proj1 (leave_twice_raises 5%nat init)). simpl. set_solver.
  - apply (proj2 (leave_twice_raises 5%nat (join 5%nat init))).
    simpl. set_solver.
Defined.

(** * Further properties of the code *)

(** ** Trades (lines 85-102) *)

Lemma make_trade_wf (self : Dashboard) (t : TradeDraws) :
  trade_draws_ok self t → trade_wf (tokens self) (make_trade self t).
Proof.
  intros Hok.
  destruct (make_trade_fields self t Hok) as (?&?&?&?&?).
  destruct (make_trade_ranges self t Hok) as (?&?&?).
  by constructor.
Qed.

Lemma record_trade_Forall (P : Trade.t → Prop) (t : Trade.t)
    (h : list Trade.t) :
  P t → Forall P h → Forall P (record_trade t h).
Proof.
  intros Ht Hh. destruct (record_trade_suffix t h) as [k Hk].
  assert (Forall P (h ++ [t])) as Hall.
  { apply Forall_app. split; [done|]. by apply Forall_singleton. }
  rewrite Hk in Hall. by apply Forall_app in Hall as [_ ?].
Qed.

Lemma step_history_wf (self : Dashboard) (i : input) :
  input_ok self i →
  Forall (trade_wf (tokens self)) (live_trades self) →
  Forall (trade_wf (tokens self)) (live_trades (step self i).1).
Proof.
  intros Hok Hwf.
  destruct (step_state self i) as [->|[[cs ->]|(env & -> & ->)]]; try done.
  simpl. case_match; [|done].
  apply record_trade_Forall; [|done]. apply make_trade_wf, Hok.
Qed.

(** Every trade that is in the history at any time is well formed: its
    token, side, source and exchange are from the fixed lists, its status
    is EXECUTED and its figures are in range, as long as the draws are. *)
Theorem history_trades_well_formed (self : Dashboard)
    (inputs : list input) :
  Forall (input_ok self) inputs →
  Forall (trade_wf (tokens self)) (live_trades self) →
  Forall (trade_wf (tokens self)) (live_trades (run self inputs).1).
Proof.
  revert self. induction inputs as [|i rest IH]; intros self Hok Hwf; [done|].
  apply Forall_cons in Hok as [Hi Hrest].
  rewrite run_cons. cbn [fst].
  rewrite <- (step_tokens self i). apply IH.
  - eapply Forall_impl; [exact Hrest|]. intros j. apply input_ok_step.
  - rewrite step_tokens. by apply step_history_wf.
Qed.

Lemma history_trades_well_formed_witness :
  Forall (trade_wf (tokens init))
    (live_trades
       (run init [Connect 1%nat; Tick (sample_env 0.9 []);
                  Tick (sample_env 0.8 [1%nat])]).1).
Proof.
  apply (history_trades_well_formed init).
  - repeat apply Forall_cons_2; try apply Forall_nil_2; try exact I;
      (split; [numbers..|]; split; numbers).
  - apply Forall_nil_2.
Defined.

(** The number in the id of a trade is the binary64 product of the clock
    and 1000, truncated: two trades have the same id exactly when these
    truncated products agree, and the number never goes down when the
    clock goes up. *)
Theorem trade_id_follows_clock (s1 s2 : Dashboard)
    (t1 t2 : F64.TradeRolls) :
  (0 <= F64.t_time t1)%Q → (0 <= F64.t_time t2)%Q →
  let n1 := Qfloor (fl64 (F64.t_time t1 * 1000)) in
  let n2 := Qfloor (fl64 (F64.t_time t2 * 1000)) in
  Trade.id (F64.make_trade s1 t1) = "T" +:+ pretty n1 ∧
  (Trade.id (F64.make_trade s1 t1) = Trade.id (F64.make_trade s2 t2)
   ↔ n1 = n2) ∧
  ((F64.t_time t1 <= F64.t_time t2)%Q → n1 ≤ n2).
Proof.
  intros H1 H2. cbn zeta. cbn [F64.make_trade Trade.id]. unfold F64.mul.
  rewrite !int_nonneg
    by (apply fl64_nonneg, Qmult_le_0_compat; [done|lra]).
  split_and!.
  - reflexivity.
  - split.
    + intros Heq. apply (inj (String.app "T")) in Heq.
      by apply (inj pretty) in Heq.
    + by intros ->.
  - intros Hle. apply Qfloor_resp_le, fl64_mono.
    apply Qmult_le_compat_r; [done|lra].
Qed.

Lemma trade_id_follows_clock_witness :
  let t1 := F64.sample_trade_rolls in
  let t2 := {| F64.j_token := 0; F64.j_side := 0; F64.k_amount := 0;
               F64.k_price := 0; F64.k_latency := 0;
               F64.t_time := fl64 1700000000.0015;
               F64.t_now := "2024-01-01T00:00:00.000501";
               F64.j_source := 0; F64.j_exchange := 3 |} in
  Trade.id (F64.make_trade init t1) = "T1700000000001"%string ∧
  Qfloor (F64.t_time t1 * 1000) = 1700000000000 ∧
  Trade.id (F64.make_trade init t1) = Trade.id (F64.make_trade init t2).
Proof.
  intros t1 t2.
  assert (0 <= F64.t_time t1)%Q as H1 by binary64.
  assert (0 <= F64.t_time t2)%Q as H2 by binary64.
  destruct (trade_id_follows_clock init init t1 t2 H1 H2) as (Hid & Heq & _).
  split_and!.
  - rewrite Hid. vm_compute. reflexivity.
  - vm_compute. reflexivity.
  - apply Heq. vm_compute. reflexivity.
Defined.

(** ** The counters in binary64 (lines 75-81) *)

(** The counters in binary64: one update raises orders_executed, never
    lowers memecoin_scanned, and never lowers total_volume either, which
    ends between the binary64 sums of its old value with 1000 and with
    50000; when the old value is large the sum can round back to it. *)
Theorem update_in_binary64 (r : F64.Rolls) (self : Dashboard) :
  F64.rolls_ok self r →
  is_f64 (total_volume (metrics self)) →
  let m := metrics self in
  let m' := metrics (F64.generate_live_data r self) in
  orders_executed m < orders_executed m' ∧
  memecoin_scanned m ≤ memecoin_scanned m' ∧
  (total_volume m <= total_volume m')%Q ∧
  (fl64 (total_volume m + 1000) <= total_volume m')%Q ∧
  (total_volume m' <= fl64 (total_volume m + 50000))%Q.
Proof.
  intros [Ho Hv _ _ _ Hm _ _ _] Hf. cbn zeta.
  cbn [F64.generate_live_data metrics F64.update_metrics orders_executed
         memecoin_scanned total_volume].
  destruct (uniform_volume _ Hv) as [Hlo Hhi].
  unfold F64.randint, F64.add.
  assert (fl64 (total_volume (metrics self) + 1000)
          <= fl64 (total_volume (metrics self)
                   + F64.uniform 1000 50000 (F64.k_volume r)))%Q as H1
    by (apply fl64_mono; lra).
  split_and!; [lia|lia| |exact H1|apply fl64_mono; lra].
  eapply Qle_trans; [|exact H1].
  rewrite <- (fl64_of_f64 _ Hf) at 1. apply fl64_mono. lra.
Qed.

Lemma update_in_binary64_witness :
  let m' := metrics (F64.generate_live_data (F64.sample_rolls 17 2 0)
                       F64.large_volume) in
  (total_volume (metrics F64.large_volume) <= total_volume m')%Q ∧
  (total_volume m' == total_volume (metrics F64.large_volume))%Q.
Proof.
  intros m'. split; [|binary64].
  refine (proj1 (proj2 (proj2
    (update_in_binary64 (F64.sample_rolls 17 2 0) F64.large_volume _ _)))).
  - repeat constructor; binary64.
  - exists 1, 70. split_and!; [lia|lia|lia|binary64].
Defined.

(** ** The history as a window (lines 104-108) *)

Lemma slice_last_app_slice {A} (n : nat) (l r : list A) :
  slice_last n (slice_last n l ++ r) = slice_last n (l ++ r).
Proof.
  destruct n as [|n]; [done|].
  destruct (decide (length l ≤ S n)%nat) as [Hle|Hgt].
  - by rewrite (slice_last_short _ l).
  - unfold slice_last.
    rewrite !length_app, length_drop.
    replace (length l - (length l - S n) + length r - S n)%nat
      with (length r) by lia.
    replace (length l + length r - S n)%nat
      with ((length l - S n) + length r)%nat by lia.
    rewrite <- drop_drop. f_equal.
    rewrite drop_app_le by lia. reflexivity.
Qed.

Lemma record_trade_slice (t : Trade.t) (h : list Trade.t) :
  record_trade t h = slice_last 100 (h ++ [t]).
Proof.
  unfold record_trade. case_match eqn:E; [done|].
  apply Nat.ltb_ge in E. by rewrite slice_last_short.
Qed.

(** After any number of insertions the history is the last 100 of all
    the trades it was given, in the order in which they came: insertion
    never reorders, duplicates or alters a trade. *)
Theorem history_is_last_hundred (h ts : list Trade.t) :
  (length h ≤ 100)%nat →
  record_all h ts = slice_last 100 (h ++ ts).
Proof.
  revert h. induction ts as [|t ts IH]; intros h Hlen.
  - change (record_all h []) with h.
    by rewrite app_nil_r, slice_last_short.
  - change (record_all h (t :: ts)) with (record_all (record_trade t h) ts).
    rewrite IH by apply record_trade_length.
    rewrite record_trade_slice, slice_last_app_slice.
    by rewrite <- app_assoc.
Qed.

Lemma history_is_last_hundred_witness :
  record_all [] (replicate 120 sample_trade)
  = slice_last 100 ([] ++ replicate 120 sample_trade).
Proof.
  apply (history_is_last_hundred [] (replicate 120 sample_trade)).
  simpl. lia.
Defined.

(** ** What no input changes *)

(** No connection, disconnection or tick ever changes success_rate,
    active_strategies, the token list or the running flag: a dashboard
    that runs keeps running, its loop has no exit of its own. *)
Theorem run_constants (self : Dashboard) (inputs : list input) :
  let self' := (run self inputs).1 in
  success_rate (metrics self') = success_rate (metrics self) ∧
  active_strategies (metrics self') = active_strategies (metrics self) ∧
  tokens self' = tokens self ∧
  running self' = running self.
Proof.
  revert self. induction inputs as [|i rest IH]; intros self; [done|].
  cbn zeta. rewrite run_cons. cbn [fst].
  destruct (IH (step self i).1) as (-> & -> & -> & ->).
  destruct (step_state self i) as [->|[[cs ->]|(env & -> & ->)]]; done.
Qed.

(** ** The broadcast loop (lines 44-71) *)




Lemma tick_generates (env : Env) (self : Dashboard) :
  clients self ≠ ∅ →
  (tick env self).1 = generate_live_data (env_draws env) self.
Proof. intros Hne%truthy_spec. by rewrite tick_state, Hne. Qed.




(** While nobody is connected the loop idles: however long it runs, the
    state stays exactly as it was and no iteration serialises or sends
    anything, so the next client finds the metrics where the last one
    left them. *)
Theorem broadcast_data_idle (envs : list Env) (self : Dashboard) :
  clients self = ∅ →
  (broadcast_data envs self).1 = self ∧
  Forall (λ eff, eff = no_effects) (broadcast_data envs self).2.
Proof.
  intros Hemp. induction envs as [|env envs [IH1 IH2]]; [done|].
  simpl. destruct (running self); [|done].
  rewrite tick_effects_empty by done.
  destruct (broadcast_data envs self) as [final effs]. cbn [fst snd] in *.
  split; [done|]. by apply Forall_cons.
Qed.

Lemma broadcast_data_idle_witness :
  (broadcast_data [sample_env 0.9 []; sample_env 0.8 []] init).1 = init.
Proof.
  refine (proj1 (broadcast_data_idle
                   [sample_env 0.9 []; sample_env 0.8 []] init _)).
  reflexivity.
Defined.

(** In one iteration every client is sent to exactly once, every send
    carries the very same payload, the message of this iteration, and
    json.dumps is called once for each client, not once for the
    iteration. *)
Theorem tick_payloads (env : Env) (self : Dashboard) :
  let eff := (tick env self).2 in
  let data :=
    make_data (env_now env) (generate_live_data (env_draws env) self) in
  dumps_calls eff = size (clients self) ∧
  length (sends eff) = size (clients self) ∧
  (sends eff).*1.*1 ≡ₚ elements (clients self) ∧
  NoDup (sends eff).*1.*1 ∧
  Forall (λ s, s.1.2 = data ∧ s.2 = env_send env s.1.1 data) (sends eff) ∧
  ∀ c1 d1 r1 c2 d2 r2,
    (c1, d1, r1) ∈ sends eff → (c2, d2, r2) ∈ sends eff → d1 = d2.
Proof.
  cbn zeta. destruct (decide (clients self = ∅)) as [Hemp|Hne].
  - rewrite tick_effects_empty by done. rewrite Hemp. cbn.
    rewrite elements_empty.
    split_and!; try done; [constructor|].
    intros ?????? Hin. by apply elem_of_nil in Hin.
  - rewrite tick_effects by done. cbn zeta.
    cbn [dumps_calls sends]. rewrite length_fmap.
    assert (((λ c, (c, make_data (env_now env)
                         (generate_live_data (env_draws env) self),
                    env_send env c
                      (make_data (env_now env)
                         (generate_live_data (env_draws env) self))))
               <$> elements (clients self)).*1.*1
            = elements (clients self)) as Hto.
    { rewrite <- !list_fmap_compose.
      erewrite (list_fmap_ext _ id); [by rewrite list_fmap_id|]. done. }
    rewrite Hto.
    split_and!; try done.
    + apply NoDup_elements.
    + apply Forall_fmap, Forall_true. by intros c.
    + intros c1 d1 r1 c2 d2 r2
        (? & [= _ -> _] & _)%list_elem_of_fmap
        (? & [= _ -> _] & _)%list_elem_of_fmap.
      reflexivity.
Qed.

Lemma slice_last_last {A} (n : nat) (l : list A) :
  (0 < n)%nat → last (slice_last n l) = last l.
Proof.
  intros Hn. destruct (decide (length l ≤ n)%nat) as [Hle|Hgt].
  - by rewrite slice_last_short.
  - destruct n as [|n]; [lia|]. unfold slice_last.
    rewrite !last_lookup, length_drop, lookup_drop. f_equal. lia.
Qed.

(** A trade that is generated in an iteration is sent in that same
    iteration: it is the last element of the live_trades array of the
    message that every client gets. *)
Theorem fresh_trade_is_sent (env : Env) (self : Dashboard)
    (c : websocket) (msg : json) (r : result unit) :
  new_trade (env_draws env) = true →
  (c, msg, r) ∈ sends (tick env self).2 →
  ∃ items : list json,
    get "live_trades" msg = Some (JArr items) ∧
    last items
    = Some (trade_dict (make_trade self (r_trade (env_draws env)))).
Proof.
  intros Hnew Hin.
  assert (clients self ≠ ∅) as Hne.
  { apply tick_sends_clients in Hin. set_solver. }
  rewrite tick_effects in Hin by done. cbn zeta in Hin. cbn [sends] in Hin.
  apply list_elem_of_fmap in Hin as (c' & [= _ -> _] & _).
  eexists. split; [reflexivity|].
  rewrite fmap_last, slice_last_last by lia.
  cbn [generate_live_data live_trades]. rewrite Hnew.
  by rewrite record_trade_last.
Qed.

Lemma fresh_trade_is_sent_witness :
  ∃ items : list json,
    get "live_trades"
      (make_data (env_now (sample_env 0.9 []))
         (tick (sample_env 0.9 []) (join 1%nat init)).1)
    = Some (JArr items) ∧
    last items = Some (trade_dict sample_trade).
Proof.
  apply (fresh_trade_is_sent (sample_env 0.9 []) (join 1%nat init)
           1%nat _ (Ok ())).
  - reflexivity.
  - vm_compute. apply list_elem_of_here.
Defined.

(** ** Connection handlers (lines 35-42) *)

(** Two dashboards whose sets of clients agree on every handle but [w]
    still agree on them after the same input. *)
Lemma step_clients_agree (s1 s2 : Dashboard) (i : input) (w : websocket) :
  (∀ w', w' ≠ w → w' ∈ clients s1 ↔ w' ∈ clients s2) →
  ∀ w', w' ≠ w → w' ∈ clients (step s1 i).1 ↔ w' ∈ clients (step s2 i).1.
Proof.
  intros Hagree w' Hw'. destruct i as [x|x|env]; simpl.
  - specialize (Hagree w' Hw'). set_solver.
  - unfold leave. destruct (decide (x = w')) as [->|Hx].
    + specialize (Hagree w' Hw').
      do 2 case_bool_decide; simpl; set_solver.
    + specialize (Hagree w' Hw').
      do 2 case_bool_decide; simpl; set_solver.
  - destruct (running s1), (running s2); rewrite ?tick_clients; auto.
Qed.

Lemma run_clients_agree (s1 s2 : Dashboard) (inputs : list input)
    (w : websocket) :
  (∀ w', w' ≠ w → w' ∈ clients s1 ↔ w' ∈ clients s2) →
  ∀ w', w' ≠ w →
    w' ∈ clients (run s1 inputs).1 ↔ w' ∈ clients (run s2 inputs).1.
Proof.
  revert s1 s2. induction inputs as [|i rest IH]; intros s1 s2 Hagree; [done|].
  rewrite !run_cons. cbn [fst]. apply IH. by apply step_clients_agree.
Qed.

(** A connection handler cleans up after itself and after nobody else:
    if no other handler removes its connection while it waits, its
    finally clause raises nothing, its connection is gone afterwards, and
    every other handle is subscribed exactly if it would be without this
    handler. *)
Theorem register_client_releases (w : websocket) (during : list input)
    (self : Dashboard) :
  Disconnect w ∉ during →
  (register_client w during self).1 = Ok () ∧
  (w ∉ clients (register_client w during self).2) ∧
  ∀ w', w' ≠ w →
    w' ∈ clients (register_client w during self).2
    ↔ w' ∈ clients (run self during).1.
Proof.
  intros Hno. destruct (register_client_ok w during self Hno) as [Hok Hgone].
  split_and!; [done|done|]. intros w' Hw'.
  unfold register_client. rewrite leave_present.
  - cbn [snd set_clients clients].
    rewrite elem_of_difference, elem_of_singleton.
    rewrite (run_clients_agree (join w self) self during w); [tauto| |done].
    intros x Hx. simpl. set_solver.
  - apply run_keeps_present; [|done]. simpl. set_solver.
Qed.

Lemma register_client_releases_witness :
  let during := [Connect 2%nat; Tick (sample_env 0.9 [1%nat]);
                 Disconnect 3%nat] in
  (register_client 1%nat during init).1 = Ok () ∧
  (1%nat ∉ clients (register_client 1%nat during init).2) ∧
  ∀ w', w' ≠ 1%nat →
    w' ∈ clients (register_client 1%nat during init).2
    ↔ w' ∈ clients (run init during).1.
Proof.
  apply (register_client_releases 1%nat).
  intros Hin. repeat (apply elem_of_cons in Hin as [Hin|Hin]; [done|]).
  by apply elem_of_nil in Hin.
Defined.

Lemma set_clients_same (self : Dashboard) (cs : gset nat) :
  cs = clients self → set_clients cs self = self.
Proof. intros ->. by destruct self. Qed.

(** A connection that opens and closes with nothing in between leaves
    the dashboard exactly as it found it, and adding a connection that is
    already registered changes nothing. *)
Theorem join_leave_round_trip (w : websocket) (self : Dashboard) :
  w ∉ clients self →
  leave w (join w self) = (Ok (), self) ∧
  join w (join w self) = join w self.
Proof.
  intros Hw. split.
  - rewrite leave_present by (simpl; set_solver). f_equal.
    unfold join, set_clients. cbn [clients running metrics live_trades tokens].
    apply set_clients_same. set_solver.
  - unfold join, set_clients. cbn [clients running metrics live_trades tokens].
    f_equal. set_solver.
Qed.

Lemma join_leave_round_trip_witness :
  leave 7%nat (join 7%nat init) = (Ok (), init) ∧
  join 7%nat (join 7%nat init) = join 7%nat init.
Proof.
  apply (join_leave_round_trip 7%nat init). simpl. set_solver.
Defined.

(** ** The static page (lines 110-114) *)

(** Only the root path is rewritten, and to the dashboard page: the path
    handed on is never the root, every other path is handed on unchanged,
    and rewriting twice is rewriting once. *)
Theorem do_GET_path (path : string) :
  do_GET path ≠ "/"%string ∧
  (path ≠ "/"%string → do_GET path = path) ∧
  (do_GET path = "/dashboard.html"%string
   ↔ path = "/"%string ∨ path = "/dashboard.html"%string) ∧
  do_GET (do_GET path) = do_GET path.
Proof.
  unfold do_GET. destruct (String.eqb_spec path "/") as [->|Hne].
  - split_and!; try done. naive_solver.
  - rewrite (proj2 (String.eqb_neq path "/")) by done.
    split_and!; try done. naive_solver.
Qed.

(** ** The page script: reconnection (lines 318-357) *)

Lemma page_loaded_inv (throws : bool) : Page.inv (Page.loaded throws).
Proof. destruct throws; unfold Page.inv; cbn; lia. Qed.

Lemma page_step_inv (ev : Page.event) (p p' : Page.t) :
  Page.inv p → Page.step ev p = Some p' → Page.inv p'.
Proof.
  unfold Page.inv, Page.maxReconnectAttempts.
  intros (Hone & Hmax & Htimer) Hstep.
  destruct ev as [|[]| |throws]; simpl in Hstep.
  - destruct (Page.connecting p) eqn:Ec; [done|].
    injection Hstep as <-. cbn. lia.
  - destruct (Page.opened p) eqn:Eo; [done|].
    injection Hstep as <-. cbn -[Nat.ltb].
    destruct (Nat.ltb_spec (Page.reconnectAttempts p)
                Page.maxReconnectAttempts) as [Hlt|Hge];
      unfold Page.maxReconnectAttempts in *; lia.
  - destruct (Page.connecting p) eqn:Ec; [done|].
    injection Hstep as <-. cbn -[Nat.ltb].
    destruct (Nat.ltb_spec (Page.reconnectAttempts p)
                Page.maxReconnectAttempts) as [Hlt|Hge];
      unfold Page.maxReconnectAttempts in *; lia.
  - destruct (0 <? _)%nat; [|done]. by injection Hstep as <-.
  - destruct (Page.timers p) eqn:Ek; [done|].
    injection Hstep as <-. destruct throws; cbn; lia.
Qed.

Lemma page_step_attempts (ev : Page.event) (p p' : Page.t) :
  ev ≠ Page.Open → Page.step ev p = Some p' →
  Page.reconnectAttempts p'
  = (Page.reconnectAttempts p + Page.timeouts [ev])%nat.
Proof.
  intros Hev Hstep. destruct ev as [|[]| |throws]; simpl in Hstep; [done|..].
  - destruct (Page.opened p); [done|]. injection Hstep as <-. cbn. lia.
  - destruct (Page.connecting p); [done|]. injection Hstep as <-. cbn. lia.
  - destruct (0 <? _)%nat; [|done]. injection Hstep as <-. cbn. lia.
  - destruct (Page.timers p); [done|].
    injection Hstep as <-. destruct throws; cbn; lia.
Qed.

Lemma page_timeouts_cons (ev : Page.event) (evs : list Page.event) :
  Page.timeouts (ev :: evs)
  = (Page.timeouts [ev] + Page.timeouts evs)%nat.
Proof. by destruct ev. Qed.

(** The page never has more than one socket or timer alive and never
    counts beyond five attempts.  As long as no socket opens, every
    reconnection is counted: after a page load at most five reconnections
    are made in a row. *)
Theorem reconnect_budget (evs : list Page.event) (p p' : Page.t) :
  Page.inv p →
  Page.run evs p = Some p' →
  (Page.connecting p' + Page.opened p' + Page.timers p' ≤ 1)%nat ∧
  (Page.reconnectAttempts p' ≤ 5)%nat ∧
  (Page.Open ∉ evs →
   Page.reconnectAttempts p'
   = (Page.reconnectAttempts p + Page.timeouts evs)%nat ∧
   (Page.timeouts evs ≤ 5)%nat).
Proof.
  revert p. induction evs as [|ev evs IH]; intros p Hinv Hrun.
  - injection Hrun as <-. destruct Hinv as (? & ? & _).
    split_and!; try done. intros _. simpl. split; [lia|lia].
  - simpl in Hrun. destruct (Page.step ev p) as [p1|] eqn:Hstep; [|done].
    pose proof (page_step_inv ev p p1 Hinv Hstep) as Hinv1.
    destruct (IH p1 Hinv1 Hrun) as (Hone & Hmax & Hcount).
    split_and!; try done. intros Hno.
    apply not_elem_of_cons in Hno as [Hev Hevs].
    destruct (Hcount Hevs) as [Heq Hle].
    rewrite page_timeouts_cons.
    rewrite (page_step_attempts ev p p1) in Heq by done.
    split; lia.
Qed.

Lemma reconnect_budget_witness :
  ∃ p', Page.run [Page.Close false; Page.Timeout false; Page.Error;
                  Page.Close false; Page.Timeout false]
          (Page.loaded false) = Some p' ∧
        Page.reconnectAttempts p' = 2%nat.
Proof.
  eexists. split; [reflexivity|].
  refine (proj1 (proj2 (proj2
    (reconnect_budget [Page.Close false; Page.Timeout false; Page.Error;
                       Page.Close false; Page.Timeout false]
       (Page.loaded false) _ (page_loaded_inv false) eq_refl)) _)).
  intros Hin. repeat (apply elem_of_cons in Hin as [Hin|Hin]; [done|]).
  by apply elem_of_nil in Hin.
Defined.

Lemma page_dead (p : Page.t) :
  Page.connecting p = 0%nat → Page.opened p = 0%nat →
  Page.timers p = 0%nat →
  ∀ ev, Page.step ev p = None.
Proof.
  intros Hc Ho Hk ev.
  destruct ev as [|[]| |throws]; simpl; rewrite ?Hc, ?Ho, ?Hk; done.
Qed.

(** The page gives up for good: when a socket closes after the fifth
    attempt no timer is set, and when the constructor of the socket
    throws none is set either; the badge then says OFFLINE, or ERROR, and
    no event can reach the script any more. *)
Theorem reconnection_ends (p p' : Page.t) :
  Page.inv p →
  (∀ was_open,
     Page.reconnectAttempts p = 5%nat →
     Page.step (Page.Close was_open) p = Some p' →
     Page.statusText p' = "OFFLINE"%string ∧
     ∀ ev, Page.step ev p' = None) ∧
  (Page.step (Page.Timeout true) p = Some p' →
   Page.statusText p' = "ERROR"%string ∧
   ∀ ev, Page.step ev p' = None).
Proof.
  unfold Page.inv. intros (Hone & Hmax & Htimer). split.
  - intros was_open Hfive Hstep. destruct was_open; simpl in Hstep.
    + destruct (Page.opened p) eqn:Eo; [done|].
      injection Hstep as <-. split; [done|].
      apply page_dead; cbn; rewrite ?Hfive; cbn; lia.
    + destruct (Page.connecting p) eqn:Ec; [done|].
      injection Hstep as <-. split; [done|].
      apply page_dead; cbn; rewrite ?Hfive; cbn; lia.
  - simpl. intros Hstep. destruct (Page.timers p) eqn:Ek; [done|].
    injection Hstep as <-. split; [done|].
    apply page_dead; cbn; lia.
Qed.

Lemma reconnection_ends_witness :
  let p := {| Page.reconnectAttempts := 5;
              Page.statusClass := "connection-status disconnected";
              Page.statusText := "OFFLINE";
              Page.connecting := 1; Page.opened := 0; Page.timers := 0 |} in
  let p' := Page.onclose (Page.with_browser 0 0 0 p) in
  Page.statusText p' = "OFFLINE"%string ∧
  Page.step (Page.Timeout false) p' = None.
Proof.
  intros p p'.
  destruct (proj1 (reconnection_ends p p'
                     ltac:(unfold Page.inv, Page.maxReconnectAttempts;
                           cbn; lia))
              false eq_refl eq_refl) as [Htext Hdead].
  split; [exact Htext | apply Hdead].
Defined.

(** ** The page script: rendering (lines 302-316 and 359-453) *)

Lemma formatNumber_of_finite (B : JS.Builtins) (q : Q) (decimals : nat) :
  JS.formatNumber B (JS.Num (JS.Finite q)) decimals
  = JS.Done (JS.formatNumber_finite B q decimals).
Proof.
  unfold JS.formatNumber, JS.formatNumber_finite. simpl.
  destruct (Qle_bool 1000000 q); [done|]. by destruct (Qle_bool 1000 q).
Qed.

Lemma render_row_of_trade (B : JS.Builtins) (t : Trade.t) :
  JS.render_row B (JS.parse_dumps (trade_dict t))
  = JS.Done (JS.trade_row B t).
Proof.
  unfold JS.render_row. simpl. by rewrite formatNumber_of_finite.
Qed.

Lemma render_rows_of_trades (B : JS.Builtins) (ts : list Trade.t) :
  JS.map_outcome (JS.render_row B) (map JS.parse_dumps (trade_dict <$> ts))
  = JS.Done (map (JS.trade_row B) ts).
Proof.
  induction ts as [|t ts IH]; [done|].
  rewrite fmap_cons. cbn [map JS.map_outcome].
  by rewrite render_row_of_trade, IH.
Qed.

Lemma rev_fmap {A C} (f : A → C) (l : list A) : rev (f <$> l) = f <$> rev l.
Proof.
  induction l as [|x l IH]; [done|].
  rewrite fmap_cons. simpl. by rewrite IH, fmap_app.
Qed.

Lemma update_of_make_data (B : JS.Builtins) (now : string)
    (self : Dashboard) :
  JS.updateDashboard B (JS.parse_dumps (make_data now self))
  = JS.Done (Some (JS.dashboard_view B self)).
Proof.
  unfold JS.updateDashboard, make_data, JS.prop2.
  cbn [JS.parse_dumps map fst snd metrics_dict system_status JS.prop JS.own
       JS.bind String.eqb Ascii.eqb Bool.eqb JS.is_string].
  rewrite !formatNumber_of_finite. cbn [JS.bind JS.call_toFixed].
  unfold JS.reversed_map.
  rewrite <- map_rev, rev_fmap, render_rows_of_trades.
  reflexivity.
Qed.

Lemma tick_sends_data (env : Env) (self : Dashboard) c msg r :
  (c, msg, r) ∈ sends (tick env self).2 →
  msg = make_data (env_now env) (tick env self).1.
Proof.
  intros Hin.
  assert (clients self ≠ ∅) as Hne.
  { apply tick_sends_clients in Hin. set_solver. }
  rewrite tick_effects in Hin by done. cbn zeta in Hin. cbn [sends] in Hin.
  apply list_elem_of_fmap in Hin as (c' & [= _ -> _] & _).
  by rewrite tick_generates.
Qed.

Lemma update_of_sent_message (B : JS.Builtins) (env : Env)
    (self : Dashboard) c msg r :
  (c, msg, r) ∈ sends (tick env self).2 →
  JS.updateDashboard B (JS.parse_dumps msg)
  = JS.Done (Some (JS.dashboard_view B (tick env self).1)).
Proof.
  intros ->%tick_sends_data. apply update_of_make_data.
Qed.

(** The page can show every message of the server: whatever the state
    and the draws, the script finds every field it reads, with the type
    it needs, throws nothing and replaces the panel; what it shows is the
    state of the server after the tick. *)
Theorem page_renders_every_message (B : JS.Builtins) (env : Env)
    (self : Dashboard) (c : websocket) (msg : json) (r : result unit) :
  (c, msg, r) ∈ sends (tick env self).2 →
  JS.updateDashboard B (JS.parse_dumps msg)
  = JS.Done (Some (JS.dashboard_view B (tick env self).1)).
Proof. apply update_of_sent_message. Qed.

Lemma page_renders_every_message_witness :
  let env := sample_env 0.9 [] in
  let self := join 1%nat init in
  JS.updateDashboard JS.sample_builtins
    (JS.parse_dumps (make_data (env_now env) (tick env self).1))
  = JS.Done (Some (JS.dashboard_view JS.sample_builtins (tick env self).1)).
Proof.
  apply (page_renders_every_message JS.sample_builtins
           (sample_env 0.9 []) (join 1%nat init) 1%nat _ (Ok ())).
  vm_compute. apply list_elem_of_here.
Defined.

(** The trades panel has at most ten rows and the most recent trade is
    its first row: the page reverses the window that the server sends
    oldest first. *)
Theorem newest_trade_on_top (B : JS.Builtins) (env : Env)
    (self : Dashboard) (c : websocket) (msg : json) (r : result unit)
    (newest : Trade.t) :
  (c, msg, r) ∈ sends (tick env self).2 →
  last (live_trades (tick env self).1) = Some newest →
  ∃ (v : JS.view) (older : list JS.row),
    JS.updateDashboard B (JS.parse_dumps msg) = JS.Done (Some v) ∧
    JS.shown_rows v = JS.trade_row B newest :: older ∧
    (length (JS.shown_rows v) ≤ 10)%nat.
Proof.
  intros Hin Hlast.
  rewrite (update_of_sent_message B env self c msg r Hin).
  rewrite <- (slice_last_last 10) in Hlast by lia.
  pose proof (slice_last_length 10 (live_trades (tick env self).1)) as Hlen.
  destruct (slice_last 10 (live_trades (tick env self).1))
    as [|x l] eqn:E using rev_ind; [done|].
  rewrite last_snoc in Hlast. injection Hlast as ->.
  eexists _, _. split; [reflexivity|].
  cbn [JS.dashboard_view JS.shown_rows]. rewrite E.
  rewrite rev_app_distr. cbn [rev app map]. split; [reflexivity|].
  cbn [length]. rewrite length_map, length_rev.
  rewrite length_app in Hlen. cbn [length] in Hlen. lia.
Qed.

Lemma newest_trade_on_top_witness :
  let env := sample_env 0.9 [] in
  let self := join 1%nat init in
  ∃ (v : JS.view) (older : list JS.row),
    JS.updateDashboard JS.sample_builtins
      (JS.parse_dumps (make_data (env_now env) (tick env self).1))
    = JS.Done (Some v) ∧
    JS.shown_rows v = JS.trade_row JS.sample_builtins sample_trade :: older ∧
    (length (JS.shown_rows v) ≤ 10)%nat.
Proof.
  apply (newest_trade_on_top JS.sample_builtins
           (sample_env 0.9 []) (join 1%nat init) 1%nat _ (Ok ())).
  - vm_compute. apply list_elem_of_here.
  - reflexivity.
Defined.

(** Every trade of the server is shown with its amount in thousands,
    with one decimal and the suffix K: the decimals that the template
    passes to formatNumber are never used for a trade, whose amount is at
    least 1000 and below a million.  The row never throws, and its side
    is styled as a buy exactly when the side is BUY. *)
Theorem trade_row_amount (B : JS.Builtins) (toks : list string)
    (t : Trade.t) :
  trade_wf toks t →
  (∀ decimals,
     JS.formatNumber B (JS.Num (JS.Finite (Trade.amount_usd t))) decimals
     = JS.Done (JS.toFixed B (Trade.amount_usd t / 1000) 1 +:+ "K")) ∧
  ∃ row,
    JS.render_row B (JS.parse_dumps (trade_dict t)) = JS.Done row ∧
    JS.row_amount row = JS.toFixed B (Trade.amount_usd t / 1000) 1 +:+ "K" ∧
    (JS.row_side_class row = "trade-buy"%string
     ↔ Trade.side t = "BUY"%string).
Proof.
  intros [_ _ [Hlo Hhi] _ _ _ _ _].
  assert (∀ decimals,
    JS.formatNumber_finite B (Trade.amount_usd t) decimals
    = JS.toFixed B (Trade.amount_usd t / 1000) 1 +:+ "K") as Hfmt.
  { intros d. unfold JS.formatNumber_finite.
    assert (Qle_bool 1000000 (Trade.amount_usd t) = false) as ->.
    { apply not_true_is_false. rewrite Qle_bool_iff. lra. }
    assert (Qle_bool 1000 (Trade.amount_usd t) = true) as ->.
    { by apply Qle_bool_iff. }
    reflexivity. }
  split.
  - intros d. by rewrite formatNumber_of_finite, Hfmt.
  - eexists. split; [apply render_row_of_trade|].
    cbn [JS.trade_row JS.row_amount JS.row_side_class].
    split; [apply Hfmt|].
    destruct (String.eqb_spec (Trade.side t) "BUY"); split; done.
Qed.

Lemma trade_row_amount_witness :
  JS.formatNumber JS.sample_builtins
    (JS.Num (JS.Finite (Trade.amount_usd sample_trade))) 0
  = JS.Done (JS.toFixed JS.sample_builtins
               (Trade.amount_usd sample_trade / 1000) 1 +:+ "K").
Proof.
  refine (proj1 (trade_row_amount JS.sample_builtins (tokens init)
                   sample_trade _) 0%nat).
  apply (make_trade_wf init sample_trade_draws). split; numbers.
Defined.

Lemma is_string_spec (s : string) (v : JS.value) :
  JS.is_string s v = true ↔ v = JS.Str s.
Proof.
  destruct v; simpl; try (split; [done|intros [=]]).
  rewrite String.eqb_eq. split; [by intros ->|by intros [= ->]].
Qed.

(** What the page does with a message that is not the server's.  On
    null (and on undefined) reading the type throws a TypeError.  A
    boolean, a number, a string or an array has no type and is ignored,
    and so is an object whose type is not update.  An update whose
    metrics are missing or null, or whose metrics object has no numeric
    avg_latency_us, throws a TypeError before anything is shown. *)
Theorem update_rejects_malformed (B : JS.Builtins)
    (fields mfields : list (string * JS.value)) :
  JS.updateDashboard B JS.Null = JS.TypeError ∧
  JS.updateDashboard B JS.Undefined = JS.TypeError ∧
  (∀ data, data ≠ JS.Null → data ≠ JS.Undefined → (∀ fs, data ≠ JS.Obj fs) →
   JS.updateDashboard B data = JS.Done None) ∧
  (JS.own "type" fields ≠ JS.Str "update" →
   JS.updateDashboard B (JS.Obj fields) = JS.Done None) ∧
  (JS.own "type" fields = JS.Str "update" →
   JS.own "metrics" fields = JS.Undefined ∨
   JS.own "metrics" fields = JS.Null →
   JS.updateDashboard B (JS.Obj fields) = JS.TypeError) ∧
  (JS.own "type" fields = JS.Str "update" →
   JS.own "metrics" fields = JS.Obj mfields →
   (∀ n, JS.own "avg_latency_us" mfields ≠ JS.Num n) →
   JS.updateDashboard B (JS.Obj fields) = JS.TypeError).
Proof.
  split_and!.
  - reflexivity.
  - reflexivity.
  - intros data Hn Hu Ho. destruct data; try done. by destruct (Ho fields0).
  - intros Hty. unfold JS.updateDashboard. cbn [JS.prop JS.bind].
    destruct (JS.is_string "update" (JS.own "type" fields)) eqn:E; [|done].
    by apply is_string_spec in E.
  - intros Hty Hm. unfold JS.updateDashboard, JS.prop2.
    cbn [JS.prop JS.bind]. rewrite Hty. by destruct Hm as [-> | ->].
  - intros Hty Hm Hlat. unfold JS.updateDashboard, JS.prop2.
    cbn [JS.prop JS.bind]. rewrite Hty, Hm.
    cbn [JS.is_string String.eqb Ascii.eqb Bool.eqb JS.prop JS.bind].
    destruct (JS.formatNumber B _ 2); [|done]. cbn [JS.bind].
    destruct (JS.own "avg_latency_us" mfields) eqn:El; try done.
    by destruct (Hlat n).
Qed.

Lemma update_rejects_malformed_witness :
  JS.updateDashboard JS.sample_builtins
    (JS.Obj [("type", JS.Str "update")]%string) = JS.TypeError ∧
  JS.updateDashboard JS.sample_builtins
    (JS.Obj [("type", JS.Str "hello")]%string) = JS.Done None.
Proof.
  destruct (update_rejects_malformed JS.sample_builtins
              [("type", JS.Str "update")]%string [])
    as (_ & _ & _ & _ & Hmissing & _).
  destruct (update_rejects_malformed JS.sample_builtins
              [("type", JS.Str "hello")]%string [])
    as (_ & _ & _ & Hother & _).
  split; [apply Hmissing; [done | by left] | by apply Hother].
Defined.

Lemma tick_payloads_witness :
  let eff := (tick (sample_env 0.9 [2%nat]) (join 1%nat (join 2%nat init))).2 in
  dumps_calls eff = 2%nat ∧ length (sends eff) = 2%nat ∧
  NoDup (sends eff).*1.*1.
Proof.
  destruct (tick_payloads (sample_env 0.9 [2%nat])
              (join 1%nat (join 2%nat init))) as (Hd & Hs & _ & Hn & _).
  split_and!; [rewrite Hd | rewrite Hs | exact Hn]; by vm_compute.
Defined.

Lemma do_GET_path_witness :
  do_GET "/index.html" = "/index.html"%string ∧
  do_GET "/" ≠ "/"%string.
Proof.
  split.
  - by apply (proj1 (proj2 (do_GET_path "/index.html"))).
  - apply (proj1 (do_GET_path "/")).
Defined.

(** ** The length of the history (lines 104-108) *)

Lemma record_trade_exact_length (t : Trade.t) (h : list Trade.t) :
  length (record_trade t h) = (S (length h) `min` 100)%nat.
Proof.
  rewrite record_trade_slice, slice_last_length by lia.
  rewrite length_app. cbn [length]. lia.
Qed.

(** The history is never cleared and never shrinks: along every run its
    length only grows, by at most one for each tick, until it is 100,
    and then it stays 100. *)
Theorem history_never_shrinks (self : Dashboard) (inputs : list input) :
  (length (live_trades self) ≤ 100)%nat →
  let n := length (live_trades (run self inputs).1) in
  (length (live_trades self) ≤ n)%nat ∧
  (n ≤ 100)%nat ∧
  (n ≤ length (live_trades self) + length inputs)%nat.
Proof.
  revert self. induction inputs as [|i rest IH]; intros self Hlen; cbn zeta.
  - simpl. lia.
  - rewrite run_cons. cbn [fst].
    assert (length (live_trades self) ≤ length (live_trades (step self i).1)
            ≤ (length (live_trades self) + 1) `min` 100)%nat as Hstep.
    { destruct (step_state self i) as [->|[[cs ->]|(env & -> & ->)]];
        simpl; try lia.
      case_match; [rewrite record_trade_exact_length|]; lia. }
    destruct (IH (step self i).1) as (H1 & H2 & H3); [lia|].
    cbn [length]. lia.
Qed.

Lemma history_never_shrinks_witness :
  let inputs := [Connect 1%nat; Tick (sample_env 0.9 []);
                 Tick (sample_env 0.95 [])] in
  let n := length (live_trades (run init inputs).1) in
  (length (live_trades init) ≤ n)%nat ∧
  (n ≤ 100)%nat ∧
  (n ≤ length (live_trades init) + length inputs)%nat.
Proof.
  apply (history_never_shrinks init). simpl. lia.
Defined.
